(** * KeywordResearchPanel: a shallow embedding of
    [src/components/KeywordResearchPanel.tsx] and the properties of its
    formatters, response normalizer, search orchestration, debounce timer and
    bookmark toggle.

  Conventions of the embedding.
  - JavaScript strings are [string]; the development speaks about ASCII
    text (letter case and white space are the ASCII ones).
  - JSON numbers are integers ([Z]): the component only tests them for
    truthiness and for [typeof x === 'number'], it never computes with them.
  - A JavaScript object coming from [JSON.parse] is the list of its own
    properties; reading a property returns the first binding of that name
    and [undefined] when there is none.
  - An expression that may throw evaluates to a [Completion]. *)

From Stdlib Require Import ZArith String Ascii List Bool Lia.
From stdpp Require Import base decidable option list strings pretty.
Import ListNotations.

#[local] Set Warnings "-register-all".

Local Open Scope string_scope.
Local Open Scope list_scope.

(** ** JavaScript values *)

Module Js.

Inductive Value : Type :=
| Undefined
| Null
| Boolean (b : bool)
| Number (n : Z)
| Str (s : string)
| Array (items : list Value)
| Object (props : list (string * Value)).

(** What the engine, not the component, puts in the [message] of a
    [TypeError] it raises. *)
Inductive EngineFault : Type :=
| ReadOfNullish (prop : string)   (* reading [prop] of null or undefined *)
| NotIterable.                    (* spreading a value that has no iterator *)

Inductive Message : Type :=
| Text (s : string)
| EngineText (f : EngineFault).

(** A thrown value: an [Error] instance with its [message], or anything
    else. *)
Inductive Thrown : Type :=
| ErrorObject (message : Message)
| NonError.

Inductive Completion (A : Type) : Type :=
| Normal (a : A)
| Throw (t : Thrown).
Arguments Normal {A} a.
Arguments Throw {A} t.

Definition bind {A B} (k : A -> Completion B) (c : Completion A) : Completion B :=
  match c with
  | Normal a => k a
  | Throw t => Throw t
  end.

#[global] Instance completion_ret : MRet Completion := @Normal.
#[global] Instance completion_bind : MBind Completion := @bind.

(** ToBoolean. *)
Definition truthy (v : Value) : bool :=
  match v with
  | Undefined | Null => false
  | Boolean b => b
  | Number n => negb (n =? 0)%Z
  | Str s => negb (String.eqb s "")
  | Array _ | Object _ => true
  end.

(** [typeof v === 'number'] *)
Definition is_number (v : Value) : bool :=
  match v with
  | Number _ => true
  | _ => false
  end.

Fixpoint own (name : string) (props : list (string * Value)) : Value :=
  match props with
  | [] => Undefined
  | (k, v) :: rest => if String.eqb k name then v else own name rest
  end.

(** [v.name]. None of the names the component reads ([data], [allIdeas],
    [questionIdeas], [results], [keyword], [searchVolume], [volume],
    [monthly_searches], [volumeLabel], [difficultyLabel], [message]) is a
    member of a built-in prototype, so on a primitive or an array the read
    yields [undefined]. *)
Definition member (name : string) (v : Value) : Completion Value :=
  match v with
  | Undefined | Null => Throw (ErrorObject (EngineText (ReadOfNullish name)))
  | Object props => Normal (own name props)
  | _ => Normal Undefined
  end.

(** [v?.name] *)
Definition opt_member (name : string) (v : Value) : Value :=
  match v with
  | Object props => own name props
  | _ => Undefined
  end.

(** [a || b], with [b] an expression that may throw. *)
Definition or_else (a b : Completion Value) : Completion Value :=
  x ← a; if truthy x then Normal x else b.

(** [a || b] on values. *)
Definition or_value (a b : Value) : Value :=
  if truthy a then a else b.

(** [...v] inside an array literal. *)
Definition spread (v : Value) : Completion (list Value) :=
  match v with
  | Array items => Normal items
  | Str s => Normal (map (fun c => Str (String c "")) (list_ascii_of_string s))
  | _ => Throw (ErrorObject (EngineText NotIterable))
  end.

Fixpoint mapM {A B} (f : A -> Completion B) (l : list A) : Completion (list B) :=
  match l with
  | [] => Normal []
  | x :: rest => y ← f x; ys ← mapM f rest; Normal (y :: ys)
  end.

(** [String(v)], also what a template literal and the [Error] constructor
    apply. *)
Fixpoint to_string (v : Value) : string :=
  match v with
  | Undefined => "undefined"
  | Null => "null"
  | Boolean true => "true"
  | Boolean false => "false"
  | Number n => pretty n
  | Str s => s
  | Array items =>
      (fix join (l : list Value) : string :=
         match l with
         | [] => ""
         | x :: rest =>
             let here := match x with
                         | Undefined | Null => ""
                         | _ => to_string x
                         end in
             match rest with
             | [] => here
             | _ :: _ => here +:+ "," +:+ join rest
             end
         end) items
  | Object _ => "[object Object]"
  end.

(** ASCII letter case, as [toUpperCase] and [toLowerCase] act on ASCII
    text. *)
Definition upper (c : ascii) : ascii :=
  let n := nat_of_ascii c in
  if (97 <=? n)%nat && (n <=? 122)%nat then ascii_of_nat (n - 32) else c.

Definition lower (c : ascii) : ascii :=
  let n := nat_of_ascii c in
  if (65 <=? n)%nat && (n <=? 90)%nat then ascii_of_nat (n + 32) else c.

Fixpoint map_string (f : ascii -> ascii) (s : string) : string :=
  match s with
  | EmptyString => EmptyString
  | String c rest => String (f c) (map_string f rest)
  end.

Definition toUpperCase : string -> string := map_string upper.
Definition toLowerCase : string -> string := map_string lower.

(** [s.charAt(0)] and [s.slice(1)] *)
Definition charAt0 (s : string) : string :=
  match s with
  | EmptyString => ""
  | String c _ => String c ""
  end.

Definition slice1 (s : string) : string :=
  match s with
  | EmptyString => ""
  | String _ rest => rest
  end.

(** White space that [trim] strips, within ASCII: tab, line feed, vertical
    tab, form feed, carriage return, space. *)
Definition is_space (c : ascii) : bool :=
  let n := nat_of_ascii c in
  ((9 <=? n)%nat && (n <=? 13)%nat) || (n =? 32)%nat.

Fixpoint trimStart (s : string) : string :=
  match s with
  | EmptyString => EmptyString
  | String c rest => if is_space c then trimStart rest else s
  end.

(** [trimEnd] keeps a character when it is not white space or when
    something survives after it. *)
Fixpoint trimEnd (s : string) : string :=
  match s with
  | EmptyString => EmptyString
  | String c rest =>
      match trimEnd rest with
      | EmptyString => if is_space c then EmptyString else String c EmptyString
      | kept => String c kept
      end
  end.

Definition trim (s : string) : string := trimEnd (trimStart s).

(** Truthiness of a string: [!s] is [negb (nonempty s)]. *)
Definition nonempty (s : string) : bool := negb (String.eqb s "").

End Js.

Import Js.

(** ** Label formatters *)

(** What [formatVolumeLabel] hands to the renderer. The lookup table is an
    object literal, so [map[label]] also finds the members it inherits from
    [Object.prototype]; those are functions or objects, not text. *)
Inductive Label : Type :=
| Shown (text : string)
| PrototypeMember (name : string).

Definition volumeLabels : list (string * string) :=
  [ ("MoreThanHundredThousand", "100,000+");
    ("MoreThanTenThousand", "10,000+");
    ("MoreThanOneThousand", "1,000+");
    ("MoreThanOneHundred", "100+");
    ("LessThanOneHundred", "<100") ].

Definition objectPrototypeMembers : list string :=
  [ "constructor"; "hasOwnProperty"; "isPrototypeOf"; "propertyIsEnumerable";
    "toLocaleString"; "toString"; "valueOf"; "__proto__";
    "__defineGetter__"; "__defineSetter__"; "__lookupGetter__"; "__lookupSetter__" ].

Fixpoint assoc (name : string) (table : list (string * string)) : option string :=
  match table with
  | [] => None
  | (k, v) :: rest => if String.eqb k name then Some v else assoc name rest
  end.

(** Whether [map[label]] finds an inherited member. *)
Definition inherited (label : string) : bool :=
  existsb (String.eqb label) objectPrototypeMembers.

Definition formatVolumeLabel (label : string) : Label :=
  if negb (nonempty label) || String.eqb label "Unknown" then Shown "Unknown"
  else
    match assoc label volumeLabels with
    | Some text => if nonempty text then Shown text else Shown label
    | None =>
        if inherited label
        then PrototypeMember label
        else Shown label
    end.

Definition formatDifficultyLabel (label : string) : string :=
  if negb (nonempty label) || String.eqb label "Unknown" then "Unknown"
  else toUpperCase (charAt0 label) +:+ toLowerCase (slice1 label).

(** ** The provider and the response normalizer *)

Record Keyword : Type := mkKeyword {
  term : Value;
  volume : Value;
  difficulty : Value
}.

(** [response.json()]: the parsed body, or the rejection of a body that is not
    JSON, with the parser's message. *)
Inductive Body : Type :=
| Json (data : Value)
| NotJson (message : string).

Record Response : Type := mkResponse {
  status : N;
  body : Body
}.

(** [response.ok] *)
Definition ok (r : Response) : bool :=
  (200 <=? status r)%N && (status r <=? 299)%N.

(** How the promise of [fetch] settles: with a response, or rejected with a
    [TypeError] carrying the transport's message. *)
Inductive FetchResult : Type :=
| Responded (r : Response)
| Failed (message : string).

(** The request [fetch] is called with. The URL is the fixed endpoint with
    [keyword=encodeURIComponent(searchQuery)] and [country=us]; the key goes in
    the [X-RapidAPI-Key] header. *)
Record Request : Type := mkRequest {
  keyword_param : string;
  api_key : string
}.

Definition configurationMessage : string :=
  "RapidAPI key not configured. Please add VITE_RAPIDAPI_KEY to your environment variables.".

(** [!RAPIDAPI_KEY] *)
Definition key_missing (key : option string) : bool :=
  match key with
  | Some k => negb (nonempty k)
  | None => true
  end.

(** [new Error(m)] *)
Definition new_Error (m : string) : Thrown := ErrorObject (Text m).

(** [searchKeywords] up to its call of [fetch]. *)
Definition searchKeywords_request (key : option string) (searchQuery : string)
  : Completion Request :=
  match key with
  | Some k =>
      if nonempty k then Normal (mkRequest searchQuery k)
      else Throw (new_Error configurationMessage)
  | None => Throw (new_Error configurationMessage)
  end.

(** The callback of [keywords.map]. *)
Definition toKeyword (keyword : Value) : Completion Keyword :=
  exactVolume ← or_else (or_else (member "searchVolume" keyword)
                                 (member "volume" keyword))
                        (member "monthly_searches" keyword);
  term ← member "keyword" keyword;
  volume ← (if is_number exactVolume then Normal exactVolume
            else or_else (member "volumeLabel" keyword) (Normal (Str "Unknown")));
  difficulty ← or_else (member "difficultyLabel" keyword) (Normal (Str "Unknown"));
  Normal (mkKeyword term volume difficulty).

(** [v == null] *)
Definition nullish (v : Value) : bool :=
  match v with
  | Undefined | Null => true
  | _ => false
  end.

(** The same callback on an item that is not null, where no read can throw. *)
Definition keywordOf (item : Value) : Keyword :=
  let read name := opt_member name item in
  let exactVolume :=
    or_value (or_value (read "searchVolume") (read "volume")) (read "monthly_searches") in
  mkKeyword (read "keyword")
            (if is_number exactVolume then exactVolume
             else or_value (read "volumeLabel") (Str "Unknown"))
            (or_value (read "difficultyLabel") (Str "Unknown")).

(** [data.data?.NAME?.results || []] given the value of [data.data]. *)
Definition ideas (name : string) (inner : Value) : Value :=
  or_value (opt_member "results" (opt_member name inner)) (Array []).

(** The success path of [searchKeywords], from the parsed body on. *)
Definition normalize (data : Value) : Completion (list Keyword) :=
  inner ← member "data" data;
  let allIdeas := ideas "allIdeas" inner in
  let questionIdeas := ideas "questionIdeas" inner in
  keywords ← (a ← spread allIdeas; q ← spread questionIdeas; Normal (a ++ q));
  mapM toKeyword keywords.

(** The failure path: [errorData.message || `API request failed ...`]. *)
Definition errorOf (r : Response) : Completion (list Keyword) :=
  let errorData := match body r with
                   | Json data => data
                   | NotJson _ => Object []
                   end in
  message ← member "message" errorData;
  Throw (new_Error (if truthy message then to_string message
                    else "API request failed with status " +:+ pretty (status r))).

(** [searchKeywords] from the moment the promise of [fetch] settles. The
    [catch] block logs and rethrows, so what is thrown inside is what the
    caller sees. *)
Definition searchKeywords_response (f : FetchResult) : Completion (list Keyword) :=
  match f with
  | Failed message => Throw (new_Error message)
  | Responded r =>
      if negb (ok r) then errorOf r
      else
        match body r with
        | NotJson message => Throw (new_Error message)
        | Json data => normalize data
        end
  end.

(** ** The component *)

(** The six [useState] cells. *)
Record Panel : Type := mkPanel {
  query : string;
  debouncedQuery : string;
  keywords : list Keyword;
  isLoading : bool;
  error : option Message;
  bookmarked : list string
}.

Definition setQuery (v : string) (p : Panel) : Panel :=
  mkPanel v (debouncedQuery p) (keywords p) (isLoading p) (error p) (bookmarked p).
Definition setDebouncedQuery (v : string) (p : Panel) : Panel :=
  mkPanel (query p) v (keywords p) (isLoading p) (error p) (bookmarked p).
Definition setKeywords (v : list Keyword) (p : Panel) : Panel :=
  mkPanel (query p) (debouncedQuery p) v (isLoading p) (error p) (bookmarked p).
Definition setIsLoading (v : bool) (p : Panel) : Panel :=
  mkPanel (query p) (debouncedQuery p) (keywords p) v (error p) (bookmarked p).
Definition setError (v : option Message) (p : Panel) : Panel :=
  mkPanel (query p) (debouncedQuery p) (keywords p) (isLoading p) v (bookmarked p).
Definition setBookmarked (f : list string -> list string) (p : Panel) : Panel :=
  mkPanel (query p) (debouncedQuery p) (keywords p) (isLoading p) (error p)
          (f (bookmarked p)).

(** The updater [toggleBookmark] passes to [setBookmarked]. *)
Definition toggleBookmark (term : string) (prev : list string) : list string :=
  if bool_decide (term ∈ prev)
  then filter (λ t, t ≠ term) prev
  else prev ++ [term].

(** The component together with what surrounds it: the clock, the pending
    [setTimeout] of the debounce effect (when it is due and the [query] its
    callback captured), the requests handed to [fetch] so far (a request is
    named by its position), the requests whose [handleSearch] is still
    suspended at its [await], and the values the timer callback has passed to
    [setDebouncedQuery], oldest first. *)
Record Runtime : Type := mkRuntime {
  panel : Panel;
  clock : nat;
  timer : option (nat * string);
  requests : list Request;
  awaiting : list nat;
  commits : list string
}.

Definition with_panel (f : Panel -> Panel) (rt : Runtime) : Runtime :=
  mkRuntime (f (panel rt)) (clock rt) (timer rt) (requests rt) (awaiting rt) (commits rt).
Definition with_clock (now : nat) (rt : Runtime) : Runtime :=
  mkRuntime (panel rt) now (timer rt) (requests rt) (awaiting rt) (commits rt).
Definition with_timer (t : option (nat * string)) (rt : Runtime) : Runtime :=
  mkRuntime (panel rt) (clock rt) t (requests rt) (awaiting rt) (commits rt).
Definition send (req : Request) (rt : Runtime) : Runtime :=
  mkRuntime (panel rt) (clock rt) (timer rt) (requests rt ++ [req])
            (awaiting rt ++ [length (requests rt)]) (commits rt).
Definition settled (id : nat) (rt : Runtime) : Runtime :=
  mkRuntime (panel rt) (clock rt) (timer rt) (requests rt)
            (filter (λ i, i ≠ id) (awaiting rt)) (commits rt).
Definition committed (v : string) (rt : Runtime) : Runtime :=
  mkRuntime (panel rt) (clock rt) (timer rt) (requests rt) (awaiting rt) (commits rt ++ [v]).

(** The quiet interval of the debounce effect. *)
Definition quiet : nat := 300.

Definition initialPanel : Panel := mkPanel "" "" [] false None [].

(** After the first render: the debounce effect has armed its timer for the
    initial [query]; the auto-search effect found an empty [debouncedQuery]
    and cleared what was already clear. *)
Definition mount : Runtime :=
  mkRuntime initialPanel 0 (Some (quiet, "")) [] [] [].

(** What happens to the component. *)
Inductive Event : Type :=
| Wait (d : nat)                        (* [d] time units pass *)
| Change (value : string)               (* [onChange] of the input *)
| PressEnter                            (* [onKeyPress] with the Enter key *)
| Click                                 (* [onClick] of the button *)
| Arrive (id : nat) (f : FetchResult)   (* the [fetch] of request [id] settles *)
| Toggle (term : string).               (* the star of a keyword card *)

Section Component.

(** [import.meta.env.VITE_RAPIDAPI_KEY] *)
Variable RAPIDAPI_KEY : option string.

(** [searchQuery || query] *)
Definition queryToSearch (searchQuery : option string) (p : Panel) : string :=
  match searchQuery with
  | Some s => if nonempty s then s else query p
  | None => query p
  end.

(** [handleSearch] from the moment [searchKeywords] settles: the rest of the
    [try], the [catch] and the [finally]. *)
Definition handleSearch_settle (c : Completion (list Keyword)) (p : Panel) : Panel :=
  setIsLoading false
    match c with
    | Normal results =>
        let p1 := setKeywords results p in
        if (length results =? 0)%nat
        then setError (Some (Text "No keywords found for this query")) p1
        else p1
    | Throw (ErrorObject message) => setError (Some message) p
    | Throw NonError => setError (Some (Text "An error occurred while searching")) p
    end.

(** [handleSearch] up to its [await]. A missing key makes [searchKeywords]
    reject before [fetch] is called, and the rejection is handled before any
    other event. *)
Definition handleSearch (searchQuery : option string) (rt : Runtime) : Runtime :=
  let q := queryToSearch searchQuery (panel rt) in
  if negb (nonempty (trim q))
  then with_panel (setError (Some (Text "Please enter a search term"))) rt
  else
    let rt1 := with_panel (λ p, setKeywords [] (setError None (setIsLoading true p))) rt in
    match searchKeywords_request RAPIDAPI_KEY q with
    | Normal req => send req rt1
    | Throw t => with_panel (handleSearch_settle (Throw t)) rt1
    end.

(** The auto-search effect, which runs when [debouncedQuery] has changed. *)
Definition autoSearch (rt : Runtime) : Runtime :=
  let dq := debouncedQuery (panel rt) in
  if nonempty (trim dq)
  then handleSearch (Some dq) rt
  else with_panel (λ p, setError None (setKeywords [] p)) rt.

(** The timer callback, [setDebouncedQuery(query)] with the [query] it
    captured: a state that does not change runs no effect. *)
Definition fire (value : string) (rt : Runtime) : Runtime :=
  let rt1 := committed value (with_timer None rt) in
  if String.eqb value (debouncedQuery (panel rt))
  then rt1
  else autoSearch (with_panel (setDebouncedQuery value) rt1).

Definition wait (d : nat) (rt : Runtime) : Runtime :=
  let now := clock rt + d in
  let rt1 := with_clock now rt in
  match timer rt with
  | Some (due, value) => if (due <=? now)%nat then fire value rt1 else rt1
  | None => rt1
  end.

(** [setQuery(e.target.value)] followed by the debounce effect, which runs
    when [query] has changed: its cleanup clears the pending timer and it
    arms a new one. *)
Definition change (value : string) (rt : Runtime) : Runtime :=
  if String.eqb value (query (panel rt))
  then rt
  else with_timer (Some (clock rt + quiet, value)) (with_panel (setQuery value) rt).

Definition handleKeyPress (rt : Runtime) : Runtime :=
  if negb (isLoading (panel rt)) then handleSearch None rt else rt.

Definition arrive (id : nat) (f : FetchResult) (rt : Runtime) : Runtime :=
  if bool_decide (id ∈ awaiting rt)
  then settled id (with_panel (handleSearch_settle (searchKeywords_response f)) rt)
  else rt.

Definition step (rt : Runtime) (e : Event) : Runtime :=
  match e with
  | Wait d => wait d rt
  | Change value => change value rt
  | PressEnter => handleKeyPress rt
  | Click => handleSearch None rt
  | Arrive id f => arrive id f rt
  | Toggle t => with_panel (setBookmarked (toggleBookmark t)) rt
  end.

Definition run (events : list Event) (rt : Runtime) : Runtime :=
  fold_left step events rt.

(** [disabled={isLoading || !RAPIDAPI_KEY}] on the input and the button. *)
Definition disabled (rt : Runtime) : bool :=
  isLoading (panel rt) || key_missing RAPIDAPI_KEY.

(** Which events the rendered page and the network can deliver: an input
    event that changes the text of an enabled input, a key or a click on an
    enabled control, the answer to a request that is still awaited, the star
    of a card that is displayed. *)
Definition enabled (rt : Runtime) (e : Event) : bool :=
  match e with
  | Wait _ => true
  | Change value => negb (disabled rt) && negb (String.eqb value (query (panel rt)))
  | PressEnter | Click => negb (disabled rt)
  | Arrive id _ => bool_decide (id ∈ awaiting rt)
  | Toggle t =>
      negb (isLoading (panel rt))
      && existsb (λ k, match term k with
                       | Str s => String.eqb s t
                       | _ => false
                       end) (keywords (panel rt))
  end.

Fixpoint feasible (events : list Event) (rt : Runtime) : bool :=
  match events with
  | [] => true
  | e :: rest => enabled rt e && feasible rest (step rt e)
  end.

End Component.

(** ** The cells of a keyword card *)

(** The cells of a keyword card. A numeric volume is printed by
    [toLocaleString], in the reader's locale; it stays a number here. *)
Definition volumeCell (k : Keyword) : Z + Label :=
  match volume k with
  | Number n => inl n
  | v => inr (formatVolumeLabel (to_string v))
  end.

Definition difficultyCell (k : Keyword) : string :=
  formatDifficultyLabel (to_string (difficulty k)).

(** * The wording of the specification

    Definitions that state the claims: the display state, the formatters and
    the normalized item as the specification words them, the shapes of the
    inputs the claims speak about. *)

(** The display states of the specification, read off the three cells the
    view consults. *)
Definition Idle (p : Panel) : Prop :=
  keywords p = [] /\ error p = None /\ isLoading p = false.

(** Title case: first letter upper, remainder lower. *)
Definition titleCase (s : string) : string :=
  match s with
  | EmptyString => EmptyString
  | String c rest => String (upper c) (toLowerCase rest)
  end.

(** The five coarse volume tokens and their ranges; any other token is
    returned as it is. *)
Definition volumeText (label : string) : string :=
  if String.eqb label "MoreThanHundredThousand" then "100,000+"
  else if String.eqb label "MoreThanTenThousand" then "10,000+"
  else if String.eqb label "MoreThanOneThousand" then "1,000+"
  else if String.eqb label "MoreThanOneHundred" then "100+"
  else if String.eqb label "LessThanOneHundred" then "<100"
  else label.

(** The value under [data], then [name], then [results] of a parsed body;
    [undefined] as soon as one of them is not there. *)
Definition results_of (name : string) (data : Value) : Value :=
  opt_member "results" (opt_member name (opt_member "data" data)).

(** The body lacks the outer [data] object, or the collection [name] in it,
    or the [results] array of that collection. *)
Definition lacks (name : string) (data : Value) : Prop :=
  opt_member "data" data = Undefined
  \/ opt_member name (opt_member "data" data) = Undefined
  \/ results_of name data = Undefined.

(** The items a body offers under [name]: those of its [results] array, none
    when it lacks one or holds a falsy value there ([null], [false], [0] or
    the empty string). *)
Inductive collection (name : string) (data : Value) : list Value -> Prop :=
| absent : lacks name data -> collection name data []
| falsy_results : truthy (results_of name data) = false -> collection name data []
| found items : results_of name data = Array items -> collection name data items.

(** The first of [searchVolume], [volume], [monthly_searches] that holds a
    number. *)
Definition exactNumeric (item : Value) : option Z :=
  match opt_member "searchVolume" item with
  | Number n => Some n
  | _ =>
      match opt_member "volume" item with
      | Number n => Some n
      | _ =>
          match opt_member "monthly_searches" item with
          | Number n => Some n
          | _ => None
          end
      end
  end.

(** A field when the item has it, a default otherwise. *)
Definition present_or (v d : Value) : Value :=
  match v with
  | Undefined => d
  | _ => v
  end.

(** The item of the specification, word for word: the exact numeric volume if
    present, else the volume label, else "Unknown"; the difficulty label, else
    "Unknown". *)
Definition statedKeyword (item : Value) : Keyword :=
  mkKeyword (opt_member "keyword" item)
            match exactNumeric item with
            | Some n => Number n
            | None => present_or (opt_member "volumeLabel" item) (Str "Unknown")
            end
            (present_or (opt_member "difficultyLabel" item) (Str "Unknown")).

(** The same with a label counted as present when it is truthy (for a string:
    not empty). *)
Definition amendedKeyword (item : Value) : Keyword :=
  mkKeyword (opt_member "keyword" item)
            match exactNumeric item with
            | Some n => Number n
            | None => or_value (opt_member "volumeLabel" item) (Str "Unknown")
            end
            (or_value (opt_member "difficultyLabel" item) (Str "Unknown")).

(** An exact-volume field that is a number other than zero, or that is absent
    or falsy without being a number. *)
Definition exact_field_ok (v : Value) : bool :=
  match v with
  | Number n => negb (n =? 0)%Z
  | _ => negb (truthy v)
  end.

Definition exact_fields_ok (item : Value) : bool :=
  exact_field_ok (opt_member "searchVolume" item)
  && exact_field_ok (opt_member "volume" item)
  && exact_field_ok (opt_member "monthly_searches" item).

Definition well_formed (item : Value) : bool :=
  negb (nullish item) && exact_fields_ok item.

(** What a failed response offers as a message: nothing when its body is not
    JSON, or is JSON other than null with no [message] or a falsy one; the
    [message] when that is a string that is not empty. *)
Inductive error_body : Body -> option string -> Prop :=
| unparseable text : error_body (NotJson text) None
| no_message data :
    nullish data = false -> truthy (opt_member "message" data) = false ->
    error_body (Json data) None
| with_message data m :
    opt_member "message" data = Str m -> m <> "" ->
    error_body (Json data) (Some m).

(** A burst of typing after a first value: each further value with the time
    that passed since the one before. *)
Fixpoint burst (rest : list (nat * string)) : list Event :=
  match rest with
  | [] => []
  | (gap, value) :: rest' => Wait gap :: Change value :: burst rest'
  end.

(** The last value typed. *)
Fixpoint final (value : string) (rest : list (nat * string)) : string :=
  match rest with
  | [] => value
  | (_, value') :: rest' => final value' rest'
  end.

(** Every value is an edit: it differs from the text it replaces. *)
Fixpoint edits (text : string) (values : list string) : bool :=
  match values with
  | [] => true
  | value :: rest => negb (String.eqb value text) && edits value rest
  end.

(** Every value comes sooner than the quiet interval after the one before. *)
Definition rapid (rest : list (nat * string)) : bool :=
  forallb (λ gv, (fst gv <? quiet)%nat) rest.

(** * Sample inputs *)

Definition payload (allIdeas questionIdeas : list Value) : Value :=
  Object [("data", Object [("allIdeas", Object [("results", Array allIdeas)]);
                           ("questionIdeas", Object [("results", Array questionIdeas)])])].

Definition okay (data : Value) : FetchResult := Responded (mkResponse 200 (Json data)).

(** One keyword whose term is [t], as the provider sends it. *)
Definition suggestion (t : string) : Value := Object [("keyword", Str t)].

(** The payload of the specification's fourth testable property. *)
Definition sample_x : Value :=
  Object [("keyword", Str "x"); ("searchVolume", Number 120); ("difficultyLabel", Str "EASY")].
Definition sample_y : Value :=
  Object [("keyword", Str "y"); ("volumeLabel", Str "MoreThanTenThousand");
          ("difficultyLabel", Str "Unknown")].

(** Two items on which the wording of the specification and the code part. *)
Definition zero_first : Value :=
  Object [("keyword", Str "x"); ("searchVolume", Number 0);
          ("volumeLabel", Str "LessThanOneHundred")].
Definition zero_last : Value :=
  Object [("keyword", Str "x"); ("monthly_searches", Number 0);
          ("volumeLabel", Str "LessThanOneHundred")].
Definition empty_label : Value :=
  Object [("keyword", Str "y"); ("difficultyLabel", Str "")].

(** A search has loaded one keyword; the text is then cleared and the button
    clicked before the debounce timer fires. *)
Definition cleared_then_clicked : list Event :=
  [Change "ab"; Wait 300; Arrive 0 (okay (payload [sample_x] [])); Change ""; Click].

(** A search for "ab" committed by the debounce timer, still awaited. *)
Definition searching : Runtime := run (Some "k") [Change "ab"; Wait 300] mount.

(** Enter starts request 0 for "ab" and the debounce timer starts request 1
    for "ab"; the answer to request 0 enables the input again; the text
    becomes "abc" and Enter starts request 2 while request 1 is still
    awaited. *)
Definition overlap : list Event :=
  [ Change "ab"; PressEnter; Wait 300;
    Arrive 0 (okay (payload [suggestion "ab first"] []));
    Change "abc"; PressEnter ].

Definition answer_ab : FetchResult := okay (payload [suggestion "ab second"] []).
Definition answer_abc : FetchResult := okay (payload [suggestion "abc only"] []).

(** The answer to request 2 arrives, then the answer to request 1. *)
Definition late_answer : list Event :=
  overlap ++ [Arrive 2 answer_abc; Arrive 1 answer_ab].

Definition two_awaited : Runtime := run (Some "k") overlap mount.

(** * The request and the page

    The rest of the component: the URL that [searchKeywords] builds and the
    JSX that the component returns. *)

(** ** The URL of a request *)

(** The characters [encodeURIComponent] leaves as they are: letters, digits
    and [- _ . ! ~ * ' ( )]. *)
Definition unreserved (c : ascii) : bool :=
  let n := nat_of_ascii c in
  ((65 <=? n)%nat && (n <=? 90)%nat)
  || ((97 <=? n)%nat && (n <=? 122)%nat)
  || ((48 <=? n)%nat && (n <=? 57)%nat)
  || existsb (Ascii.eqb c) (list_ascii_of_string "-_.!~*'()").

Definition hexDigit (n : nat) : ascii :=
  nth n (list_ascii_of_string "0123456789ABCDEF") "0"%char.

(** One escaped byte: a percent sign and two upper-case hexadecimal digits. *)
Definition percent (byte : nat) : string :=
  String "%" (String (hexDigit (byte / 16)) (String (hexDigit (byte mod 16)) "")).

(** Every other character is escaped as the bytes of its UTF-8 encoding: one
    byte below 128, two bytes from 128 to 255 (a character above 127 is read
    as the code point of that number). *)
Definition encodeChar (c : ascii) : string :=
  let n := nat_of_ascii c in
  if unreserved c then String c ""
  else if (n <? 128)%nat then percent n
  else percent (192 + n / 64) +:+ percent (128 + n mod 64).

Fixpoint encodeURIComponent (s : string) : string :=
  match s with
  | EmptyString => EmptyString
  | String c rest => encodeChar c +:+ encodeURIComponent rest
  end.

(** The template literal of [searchKeywords]. *)
Definition url (searchQuery : string) : string :=
  "https://ahrefs-dr-rank-checker.p.rapidapi.com/keyword-generator?keyword="
  +:+ encodeURIComponent searchQuery +:+ "&country=us".

(** ** The page *)

(** [bookmarked.includes(k.term)]: only a string is equal to a bookmarked
    term. *)
Definition includes (bookmarked : list string) (v : Value) : bool :=
  match v with
  | Str s => bool_decide (s ∈ bookmarked)
  | _ => false
  end.

(** A keyword card: its term, whether its star is lit, the label of the star
    ([aria-label] and [title]), and its two cells. *)
Record Card : Type := mkCard {
  card_term : Value;
  isBookmarked : bool;
  starLabel : string;
  volumeShown : Z + Label;
  difficultyShown : string
}.

Definition card (bookmarked : list string) (k : Keyword) : Card :=
  let isBookmarked := includes bookmarked (term k) in
  mkCard (term k) isBookmarked
         (if isBookmarked then "Remove bookmark" else "Bookmark")
         (volumeCell k) (difficultyCell k).

(** Truthiness of the [error] cell when it holds a message. *)
Definition message_truthy (m : Message) : bool :=
  match m with
  | Text s => nonempty s
  | EngineText _ => true
  end.

(** What the component returns: the banner of the missing key, the text of
    the input, whether the input and the button are disabled, the text of the
    button, the loading block, the error block with its message, and the
    result block with the number in its heading and its cards. *)
Record View : Type := mkView {
  keyBanner : bool;
  inputValue : string;
  controlsDisabled : bool;
  buttonText : string;
  loadingShown : bool;
  errorShown : option Message;
  resultsShown : option (nat * list Card)
}.

Definition view (key : option string) (p : Panel) : View :=
  mkView (key_missing key)
         (query p)
         (isLoading p || key_missing key)
         (if isLoading p then "Searching..." else "Search")
         (isLoading p)
         match error p with
         | Some m => if message_truthy m && negb (isLoading p) then Some m else None
         | None => None
         end
         (if negb (isLoading p) && (0 <? length (keywords p))%nat
          then Some (length (keywords p), map (card (bookmarked p)) (keywords p))
          else None).

(** * Notions used by the further properties *)

(** The terms whose star is clicked in a sequence of events, in order. *)
Fixpoint toggles (events : list Event) : list string :=
  match events with
  | [] => []
  | Toggle t :: rest => t :: toggles rest
  | _ :: rest => toggles rest
  end.

(** Whether [t] occurs an odd number of times. *)
Fixpoint odd_times (t : string) (ts : list string) : bool :=
  match ts with
  | [] => false
  | t' :: rest => xorb (String.eqb t t') (odd_times t rest)
  end.

(** A pending timer carries the current text and is due within the quiet
    interval; with no timer pending the committed text is the current text. *)
Definition timer_current (rt : Runtime) : Prop :=
  match timer rt with
  | Some (due, value) =>
      value = query (panel rt) /\ clock rt < due /\ due <= clock rt + quiet
  | None => debouncedQuery (panel rt) = query (panel rt)
  end.

(** A request that carries the configured key and a query that is not blank. *)
Definition well_keyed (key : option string) (r : Request) : Prop :=
  key = Some (api_key r)
  /\ nonempty (api_key r) = true
  /\ nonempty (trim (keyword_param r)) = true.

(** All of a string's characters satisfy [p]. *)
Fixpoint string_forall (p : ascii -> bool) (s : string) : bool :=
  match s with
  | EmptyString => true
  | String c rest => p c && string_forall p rest
  end.

(** The value of a hexadecimal digit. *)
Definition unhex (c : ascii) : option nat :=
  let n := nat_of_ascii c in
  if (48 <=? n)%nat && (n <=? 57)%nat then Some (n - 48)
  else if (65 <=? n)%nat && (n <=? 70)%nat then Some (n - 55)
  else None.

Definition unpercent (s : string) : option (nat * string) :=
  match s with
  | String "%" (String a (String b rest)) =>
      match unhex a, unhex b with
      | Some x, Some y => Some (16 * x + y, rest)
      | _, _ => None
      end
  | _ => None
  end.

(** Reads back the first encoded character of an encoded text; the inverse of
    [encodeChar] used to show that the encoding loses nothing. *)
Definition decodeChar (s : string) : option (ascii * string) :=
  match s with
  | EmptyString => None
  | String c rest =>
      if unreserved c then Some (c, rest)
      else
        match unpercent s with
        | Some (n, rest1) =>
            if (n <? 128)%nat then Some (ascii_of_nat n, rest1)
            else
              match unpercent rest1 with
              | Some (m, rest2) => Some (ascii_of_nat (64 * (n - 192) + (m - 128)), rest2)
              | None => None
              end
        | None => None
        end
  end.

(** A card after a click on the star of the term [t]: the star of a card with
    that term changes side, every other card stays. *)
Definition restar (t : string) (c : Card) : Card :=
  match card_term c with
  | Str s =>
      if String.eqb s t
      then mkCard (card_term c) (negb (isBookmarked c))
                  (if negb (isBookmarked c) then "Remove bookmark" else "Bookmark")
                  (volumeShown c) (difficultyShown c)
      else c
  | _ => c
  end.

(** * Properties *)

(** ** Formatters *)

Lemma nonempty_true (s : string) : s <> "" -> nonempty s = true.
Proof.
  intros H. unfold nonempty. destruct (String.eqb_spec s ""); [contradiction | reflexivity].
Qed.

Lemma formatVolumeLabel_text (label : string) :
  label <> "" -> inherited label = false ->
  formatVolumeLabel label = Shown (volumeText label).
Proof.
  intros Hne Hinh. unfold formatVolumeLabel, volumeText.
  rewrite (nonempty_true label Hne). cbn [negb orb].
  destruct (String.eqb_spec label "Unknown") as [-> | _]; [reflexivity |].
  unfold volumeLabels, assoc.
  repeat match goal with
         | |- context [String.eqb ?k label] =>
             rewrite (String.eqb_sym k label);
             destruct (String.eqb_spec label k) as [-> | _]; [reflexivity |]
         end.
  rewrite Hinh. reflexivity.
Qed.

Lemma formatDifficultyLabel_titleCase (label : string) :
  label <> "" -> formatDifficultyLabel label = titleCase label.
Proof.
  intros Hne. unfold formatDifficultyLabel.
  rewrite (nonempty_true label Hne). cbn [negb orb].
  destruct (String.eqb_spec label "Unknown") as [-> | _]; [reflexivity |].
  destruct label as [| c rest]; [contradiction | reflexivity].
Qed.

(** C7 (as amended). For every label that is not the empty string and not the
    name of a member inherited from [Object.prototype], the volume formatter
    returns the range of the five known tokens and returns every other token
    unchanged, and the difficulty formatter returns the label in title case,
    which leaves "Unknown" as it is. For the empty string both formatters
    return "Unknown". *)
Theorem formatters_amended (label : string) :
  label <> "" -> inherited label = false ->
  formatVolumeLabel label = Shown (volumeText label)
  /\ formatDifficultyLabel label = titleCase label
  /\ formatDifficultyLabel "Unknown" = "Unknown"
  /\ formatVolumeLabel "" = Shown "Unknown"
  /\ formatDifficultyLabel "" = "Unknown".
Proof.
  intros Hne Hinh. split; [| split; [| repeat split]].
  - apply formatVolumeLabel_text; assumption.
  - apply formatDifficultyLabel_titleCase; assumption.
Qed.

Lemma formatters_amended_witness :
  formatVolumeLabel "MoreThanTenThousand" = Shown "10,000+"
  /\ formatDifficultyLabel "MoreThanTenThousand" = "Morethantenthousand".
Proof.
  pose proof (formatters_amended "MoreThanTenThousand") as H.
  destruct H as (Hv & Hd & _); [discriminate | reflexivity |].
  split; [exact Hv | exact Hd].
Defined.

(** C7, counterexample. The empty label is not one of the five tokens, yet
    the volume formatter does not return it unchanged, and the difficulty
    formatter does not return its title case. *)
Lemma formatters_counterexample :
  formatVolumeLabel "" <> Shown (volumeText "")
  /\ formatDifficultyLabel "" <> titleCase "".
Proof. split; discriminate. Qed.

(** ** Bookmarks *)

(** C8. Toggling a term removes it when it is bookmarked and adds it when it
    is not, and toggling it twice leaves every term's membership as it was. *)
Theorem toggleBookmark_membership (prev : list string) (term : string) :
  (term ∈ toggleBookmark term prev <-> term ∉ prev)
  /\ (forall t : string,
        t ∈ toggleBookmark term (toggleBookmark term prev) <-> t ∈ prev).
Proof.
  assert (Hone : term ∈ toggleBookmark term prev <-> term ∉ prev).
  { unfold toggleBookmark. case_bool_decide as Hin.
    - rewrite list_elem_of_filter. tauto.
    - rewrite elem_of_app, list_elem_of_singleton. tauto. }
  split; [exact Hone |].
  intros t. unfold toggleBookmark at 2. case_bool_decide as Hin.
  - unfold toggleBookmark. case_bool_decide as Hin2.
    + apply list_elem_of_filter in Hin2. tauto.
    + rewrite elem_of_app, list_elem_of_filter, list_elem_of_singleton.
      destruct (decide (t = term)) as [-> | Hne]; tauto.
  - unfold toggleBookmark. case_bool_decide as Hin2.
    + rewrite list_elem_of_filter, elem_of_app, list_elem_of_singleton.
      destruct (decide (t = term)) as [-> | Hne]; tauto.
    + exfalso. apply Hin2. rewrite elem_of_app, list_elem_of_singleton. tauto.
Qed.

(** ** Response normalizer *)

Lemma member_defined (name : string) (v : Value) :
  nullish v = false -> member name v = Normal (opt_member name v).
Proof. destruct v; simpl; intros H; try discriminate; reflexivity. Qed.

Lemma toKeyword_defined (item : Value) :
  nullish item = false -> toKeyword item = Normal (keywordOf item).
Proof.
  intros H. unfold toKeyword, keywordOf, or_else, or_value.
  rewrite !(member_defined _ item H). simpl.
  repeat match goal with
         | |- context [truthy ?v] => destruct (truthy v); simpl
         | |- context [is_number ?v] => destruct (is_number v); simpl
         end; reflexivity.
Qed.

Lemma mapM_toKeyword (items : list Value) :
  forallb (λ i, negb (nullish i)) items = true ->
  mapM toKeyword items = Normal (map keywordOf items).
Proof.
  induction items as [| i rest IH]; simpl; [reflexivity |].
  intros H. apply andb_prop in H as [Hi Hrest].
  rewrite toKeyword_defined by (destruct (nullish i); [discriminate | reflexivity]).
  simpl. rewrite (IH Hrest). reflexivity.
Qed.

Lemma lacks_results (name : string) (data : Value) :
  lacks name data -> results_of name data = Undefined.
Proof.
  unfold lacks, results_of. intros [H | [H | H]]; rewrite ?H; reflexivity.
Qed.

Lemma spread_ideas (name : string) (data : Value) (items : list Value) :
  collection name data items ->
  spread (ideas name (opt_member "data" data)) = Normal items.
Proof.
  intros [Habsent | Hfalsy | items' Hfound]; unfold ideas, or_value.
  - apply lacks_results in Habsent. unfold results_of in Habsent.
    rewrite Habsent. reflexivity.
  - unfold results_of in Hfalsy. rewrite Hfalsy. reflexivity.
  - unfold results_of in Hfound. rewrite Hfound. reflexivity.
Qed.

Lemma normalize_collections (data : Value) (a q : list Value) :
  nullish data = false ->
  collection "allIdeas" data a ->
  collection "questionIdeas" data q ->
  forallb (λ i, negb (nullish i)) (a ++ q) = true ->
  normalize data = Normal (map keywordOf (a ++ q)).
Proof.
  intros Hdata Ha Hq Hitems. unfold normalize.
  rewrite (member_defined _ data Hdata). simpl.
  rewrite (spread_ideas _ _ _ Ha), (spread_ideas _ _ _ Hq). simpl.
  apply mapM_toKeyword. exact Hitems.
Qed.

Lemma exact_field_ok_cases (v : Value) :
  exact_field_ok v = true ->
  (exists n, v = Number n /\ truthy v = true)
  \/ (truthy v = false /\ is_number v = false).
Proof.
  destruct v; simpl; intros H; try (right; split; [now apply negb_true_iff | reflexivity]).
  left. eexists. split; [reflexivity | exact H].
Qed.

Lemma not_number_match {A} (v : Value) (f : Z -> A) (d : A) :
  is_number v = false ->
  match v with Number n => f n | _ => d end = d.
Proof. destruct v; simpl; intros H; try discriminate; reflexivity. Qed.

Lemma keywordOf_amended (item : Value) :
  exact_fields_ok item = true -> keywordOf item = amendedKeyword item.
Proof.
  unfold exact_fields_ok, keywordOf, amendedKeyword, exactNumeric, or_value.
  intros H. apply andb_prop in H as [H Hm]. apply andb_prop in H as [Hs Hv].
  destruct (exact_field_ok_cases _ Hs) as [(ns & -> & Hts) | [Hts Hns]].
  { rewrite !Hts. reflexivity. }
  rewrite !Hts, (not_number_match _ _ _ Hns).
  destruct (exact_field_ok_cases _ Hv) as [(nv & -> & Htv) | [Htv Hnv]].
  { rewrite !Htv. reflexivity. }
  rewrite !Htv, (not_number_match _ _ _ Hnv).
  destruct (exact_field_ok_cases _ Hm) as [(nm & -> & Htm) | [Htm Hnm]].
  { reflexivity. }
  rewrite !Hnm, (not_number_match _ _ _ Hnm). reflexivity.
Qed.

Lemma map_keywordOf_amended (items : list Value) :
  forallb well_formed items = true ->
  map keywordOf items = map amendedKeyword items
  /\ forallb (λ i, negb (nullish i)) items = true.
Proof.
  induction items as [| i rest IH]; simpl; [split; reflexivity |].
  intros H. apply andb_prop in H as [Hi Hrest].
  unfold well_formed in Hi. apply andb_prop in Hi as [Hn Hok].
  destruct (IH Hrest) as [IHmap IHall].
  rewrite (keywordOf_amended i Hok), IHmap, Hn, IHall. split; reflexivity.
Qed.

(** C2 (as amended). For a parsed body other than null, in which each of the
    two [results] is an array, or is missing or falsy and then counts as
    empty, with items that are not null and in which no exact-volume field
    holds zero or a truthy value that is not a number, the
    normalizer returns one keyword per raw item, the general suggestions
    first, then the question suggestions, each in the provider's order: the
    term is the keyword field, the volume is the first exact numeric field,
    else the volume label when that is truthy, else "Unknown", and the
    difficulty is the difficulty label when that is truthy, else "Unknown". *)
Theorem normalize_amended (data : Value) (a q : list Value) :
  nullish data = false ->
  collection "allIdeas" data a ->
  collection "questionIdeas" data q ->
  forallb well_formed (a ++ q) = true ->
  normalize data = Normal (map amendedKeyword a ++ map amendedKeyword q).
Proof.
  intros Hdata Ha Hq Hitems.
  destruct (map_keywordOf_amended _ Hitems) as [Hmap Hall].
  rewrite (normalize_collections data a q Hdata Ha Hq Hall), Hmap, map_app.
  reflexivity.
Qed.

Lemma normalize_amended_witness :
  normalize (payload [sample_x] [sample_y])
  = Normal [mkKeyword (Str "x") (Number 120) (Str "EASY");
            mkKeyword (Str "y") (Str "MoreThanTenThousand") (Str "Unknown")].
Proof.
  apply (normalize_amended (payload [sample_x] [sample_y]) [sample_x] [sample_y]).
  - reflexivity.
  - apply found. reflexivity.
  - apply found. reflexivity.
  - reflexivity.
Defined.

(** The cards of that payload show "Easy", "10,000+" and "Unknown". *)
Example sample_cells :
  difficultyCell (mkKeyword (Str "x") (Number 120) (Str "EASY")) = "Easy"
  /\ volumeCell (mkKeyword (Str "y") (Str "MoreThanTenThousand") (Str "Unknown"))
     = inr (Shown "10,000+")
  /\ difficultyCell (mkKeyword (Str "y") (Str "MoreThanTenThousand") (Str "Unknown"))
     = "Unknown".
Proof. repeat split; reflexivity. Qed.

(** C2, counterexample. On a payload whose general suggestion has an exact
    volume of zero and whose question suggestion has an empty difficulty
    label, the normalizer returns the volume label and "Unknown", where the
    claim's wording gives the exact volume 0 and the label as it is. *)
Lemma normalize_counterexample :
  normalize (payload [zero_first] [empty_label])
  = Normal [mkKeyword (Str "x") (Str "LessThanOneHundred") (Str "Unknown");
            mkKeyword (Str "y") (Str "Unknown") (Str "Unknown")]
  /\ map statedKeyword ([zero_first] ++ [empty_label])
     = [mkKeyword (Str "x") (Number 0) (Str "Unknown");
        mkKeyword (Str "y") (Str "Unknown") (Str "")]
  /\ normalize (payload [zero_first] [empty_label])
     <> Normal (map statedKeyword ([zero_first] ++ [empty_label])).
Proof. repeat split; try reflexivity. discriminate. Qed.

(** C3, the code at the failing input. An exact volume of zero under
    [searchVolume] is dropped in favour of the coarse label (or of "Unknown"
    when there is none), while the same zero under [monthly_searches], the
    last field consulted, is kept as the volume. *)
Theorem zero_volume_dropped :
  toKeyword zero_first
  = Normal (mkKeyword (Str "x") (Str "LessThanOneHundred") (Str "Unknown"))
  /\ toKeyword (Object [("keyword", Str "x"); ("searchVolume", Number 0)])
     = Normal (mkKeyword (Str "x") (Str "Unknown") (Str "Unknown"))
  /\ toKeyword zero_last
     = Normal (mkKeyword (Str "x") (Number 0) (Str "Unknown")).
Proof. repeat split; reflexivity. Qed.

Lemma collection_falsy (name : string) (data : Value) (items : list Value) :
  collection name data items ->
  truthy (results_of name data) = false ->
  items = [].
Proof.
  intros [_ | _ | items' Hfound] Hf; [reflexivity | reflexivity |].
  rewrite Hfound in Hf. discriminate.
Qed.

(** C10 (as amended). For a parsed body other than null in which each of the
    two [results] is an array of items that are not null, or is missing (no
    [data], no such collection in it, or no [results] in the collection), or
    is falsy, a missing or falsy [results] counts as empty: the normalizer
    returns the keywords of the items of the arrays that are there, the
    general suggestions first, and the empty list when both are missing or
    falsy; it does not throw. *)
Theorem normalize_missing_collections (data : Value) (a q : list Value) :
  nullish data = false ->
  collection "allIdeas" data a ->
  collection "questionIdeas" data q ->
  forallb (λ i, negb (nullish i)) (a ++ q) = true ->
  normalize data = Normal (map keywordOf (a ++ q))
  /\ (lacks "allIdeas" data -> normalize data = Normal (map keywordOf q))
  /\ (lacks "questionIdeas" data -> normalize data = Normal (map keywordOf a))
  /\ (lacks "allIdeas" data -> lacks "questionIdeas" data -> normalize data = Normal [])
  /\ (truthy (results_of "allIdeas" data) = false ->
      normalize data = Normal (map keywordOf q))
  /\ (truthy (results_of "questionIdeas" data) = false ->
      normalize data = Normal (map keywordOf a))
  /\ (truthy (results_of "allIdeas" data) = false ->
      truthy (results_of "questionIdeas" data) = false ->
      normalize data = Normal []).
Proof.
  intros Hdata Ha Hq Hitems.
  pose proof (normalize_collections data a q Hdata Ha Hq Hitems) as Hn.
  assert (Hfalsy : forall name, lacks name data -> truthy (results_of name data) = false).
  { intros name Hl. rewrite (lacks_results name data Hl). reflexivity. }
  assert (Hall : truthy (results_of "allIdeas" data) = false ->
                 normalize data = Normal (map keywordOf q)).
  { intros Hf. rewrite Hn, (collection_falsy _ _ _ Ha Hf). reflexivity. }
  assert (Hquestion : truthy (results_of "questionIdeas" data) = false ->
                      normalize data = Normal (map keywordOf a)).
  { intros Hf. rewrite Hn, (collection_falsy _ _ _ Hq Hf), app_nil_r. reflexivity. }
  assert (Hboth : truthy (results_of "allIdeas" data) = false ->
                  truthy (results_of "questionIdeas" data) = false ->
                  normalize data = Normal []).
  { intros Hfa Hfq.
    rewrite Hn, (collection_falsy _ _ _ Ha Hfa), (collection_falsy _ _ _ Hq Hfq).
    reflexivity. }
  split; [exact Hn |].
  split; [intros Hl; apply Hall, Hfalsy, Hl |].
  split; [intros Hl; apply Hquestion, Hfalsy, Hl |].
  split; [intros Hla Hlq; apply Hboth; apply Hfalsy; assumption |].
  split; [exact Hall |]. split; [exact Hquestion | exact Hboth].
Qed.

Lemma normalize_missing_collections_witness :
  normalize (Object []) = Normal []
  /\ normalize (Object [("data", Object [("allIdeas", Object [("results", Null)]);
                                         ("questionIdeas",
                                          Object [("results", Array [sample_y])])])])
     = Normal [mkKeyword (Str "y") (Str "MoreThanTenThousand") (Str "Unknown")].
Proof.
  split.
  - refine (proj1 (normalize_missing_collections (Object []) [] [] _ _ _ _));
      [reflexivity | apply absent; left; reflexivity
       | apply absent; left; reflexivity | reflexivity].
  - refine (proj1 (normalize_missing_collections
             (Object [("data", Object [("allIdeas", Object [("results", Null)]);
                                       ("questionIdeas",
                                        Object [("results", Array [sample_y])])])])
             [] [sample_y] _ _ _ _));
      [reflexivity | apply falsy_results; reflexivity
       | apply found; reflexivity | reflexivity].
Defined.

(** C10, counterexample. A successful response whose JSON body is the literal
    null lacks the outer [data] object, hence both collections and their
    [results]; the normalizer does not return the empty list there, it throws
    on the read of [data]. *)
Lemma normalize_null_body_counterexample :
  lacks "allIdeas" Null
  /\ lacks "questionIdeas" Null
  /\ normalize Null = Throw (ErrorObject (EngineText (ReadOfNullish "data")))
  /\ normalize Null <> Normal []
  /\ searchKeywords_response (Responded (mkResponse 200 (Json Null)))
     = Throw (ErrorObject (EngineText (ReadOfNullish "data"))).
Proof.
  split; [left; reflexivity |]. split; [left; reflexivity |].
  split; [reflexivity |]. split; [discriminate | reflexivity].
Qed.

(** ** Search orchestration *)

Lemma request_without_key (key : option string) (q : string) :
  key_missing key = true ->
  searchKeywords_request key q = Throw (new_Error configurationMessage).
Proof.
  destruct key as [k |]; simpl; [| reflexivity].
  destruct (nonempty k); [discriminate | reflexivity].
Qed.

(** C4. When the key is not configured, a search for a query that is not
    empty after trimming calls [fetch] for nothing: no request is recorded or
    awaited, and the panel ends, not loading and with no keywords, on the
    configuration error message. *)
Theorem missing_key_fails_fast
    (key : option string) (searchQuery : option string) (rt : Runtime) :
  key_missing key = true ->
  nonempty (trim (queryToSearch searchQuery (panel rt))) = true ->
  let rt' := handleSearch key searchQuery rt in
  requests rt' = requests rt
  /\ awaiting rt' = awaiting rt
  /\ error (panel rt') = Some (Text configurationMessage)
  /\ isLoading (panel rt') = false
  /\ keywords (panel rt') = [].
Proof.
  intros Hkey Hq. unfold handleSearch. rewrite Hq.
  rewrite (request_without_key key _ Hkey). simpl. repeat split.
Qed.

Lemma missing_key_fails_fast_witness :
  let rt' := handleSearch None (Some "seo tools") mount in
  requests rt' = [] /\ error (panel rt') = Some (Text configurationMessage).
Proof.
  destruct (missing_key_fails_fast None (Some "seo tools") mount) as (Hr & _ & He & _);
    [reflexivity | reflexivity |].
  split; [exact Hr | exact He].
Defined.

(** Without a key no event ever reaches [fetch]. *)
Lemma handleSearch_requests_without_key
    (key : option string) (searchQuery : option string) (rt : Runtime) :
  key_missing key = true ->
  requests (handleSearch key searchQuery rt) = requests rt.
Proof.
  intros Hkey. unfold handleSearch.
  destruct (nonempty (trim _)); simpl; [| reflexivity].
  rewrite (request_without_key key _ Hkey). reflexivity.
Qed.

Lemma step_requests_without_key (key : option string) (rt : Runtime) (e : Event) :
  key_missing key = true -> requests (step key rt e) = requests rt.
Proof.
  intros Hkey. destruct e as [d | v | | | id f | t]; simpl.
  - unfold wait. destruct (timer rt) as [[due value] |]; [| reflexivity].
    destruct (due <=? clock rt + d)%nat; [| reflexivity].
    unfold fire. destruct (String.eqb value _); [reflexivity |].
    unfold autoSearch. destruct (nonempty (trim _)); [| reflexivity].
    rewrite handleSearch_requests_without_key by exact Hkey. reflexivity.
  - unfold change. destruct (String.eqb v _); reflexivity.
  - unfold handleKeyPress. destruct (negb _); [| reflexivity].
    apply handleSearch_requests_without_key, Hkey.
  - apply handleSearch_requests_without_key, Hkey.
  - unfold arrive. case_bool_decide; reflexivity.
  - reflexivity.
Qed.

(** X1. Without a configured key, no sequence of events, from any state,
    hands a request to [fetch]. *)
Lemma run_requests_without_key (key : option string) (events : list Event) (rt : Runtime) :
  key_missing key = true -> requests (run key events rt) = requests rt.
Proof.
  intros Hkey. unfold run. revert rt.
  induction events as [| e rest IH]; intros rt; simpl; [reflexivity |].
  rewrite IH. apply step_requests_without_key, Hkey.
Qed.

(** C5 (as amended). A timer that commits a new [debouncedQuery] which is
    empty after trimming clears the keywords and the error and sends nothing;
    it leaves [isLoading] alone, so the panel is idle unless a request was
    loading. A submit of a query that is empty after trimming sends nothing
    either, but it keeps the keywords and sets the error to the prompt for a
    search term. *)
Theorem empty_query_amended
    (key : option string) (searchQuery : option string) (v : string) (rt : Runtime) :
  (nonempty (trim v) = false -> v <> debouncedQuery (panel rt) ->
   let rt' := fire key v rt in
   debouncedQuery (panel rt') = v
   /\ keywords (panel rt') = []
   /\ error (panel rt') = None
   /\ isLoading (panel rt') = isLoading (panel rt)
   /\ (isLoading (panel rt) = false -> Idle (panel rt'))
   /\ requests rt' = requests rt)
  /\ (nonempty (trim (queryToSearch searchQuery (panel rt))) = false ->
      let rt' := handleSearch key searchQuery rt in
      error (panel rt') = Some (Text "Please enter a search term")
      /\ keywords (panel rt') = keywords (panel rt)
      /\ isLoading (panel rt') = isLoading (panel rt)
      /\ requests rt' = requests rt).
Proof.
  split.
  - intros Hv Hne. unfold fire.
    destruct (String.eqb_spec v (debouncedQuery (panel rt))) as [Heq | _];
      [contradiction |].
    unfold autoSearch. simpl. rewrite Hv. simpl. unfold Idle. simpl.
    repeat split; assumption.
  - intros Hq. unfold handleSearch. rewrite Hq. simpl. repeat split.
Qed.

Lemma empty_query_amended_witness :
  error (panel (handleSearch (Some "k") None mount))
  = Some (Text "Please enter a search term")
  /\ Idle (panel (fire (Some "k") "  "
                       (run (Some "k") [Change "ab"; Wait 300;
                                        Arrive 0 (okay (payload [sample_x] []))] mount))).
Proof.
  split.
  - refine (proj1 (proj2 (empty_query_amended (Some "k") None "" mount) _)).
    reflexivity.
  - refine (proj1 (proj2 (proj2 (proj2 (proj2
              (proj1 (empty_query_amended (Some "k") None "  " _) _ _))))) _);
      [reflexivity | discriminate | reflexivity].
Defined.

(** C5, counterexample. With one keyword displayed, the text is cleared and a
    search is invoked with the empty query: the keyword stays and an error is
    set, so the panel is not idle. *)
Lemma empty_query_counterexample :
  let before := run (Some "k") [Change "ab"; Wait 300;
                                Arrive 0 (okay (payload [sample_x] [])); Change ""] mount in
  let after := handleSearch (Some "k") None before in
  feasible (Some "k") cleared_then_clicked mount = true
  /\ after = run (Some "k") cleared_then_clicked mount
  /\ trim (queryToSearch None (panel before)) = ""
  /\ keywords (panel after) = [mkKeyword (Str "x") (Number 120) (Str "EASY")]
  /\ error (panel after) = Some (Text "Please enter a search term")
  /\ requests after = requests before
  /\ ~ Idle (panel after).
Proof.
  cbv zeta. do 6 (split; [vm_compute; reflexivity |]).
  intros (Hk & _). vm_compute in Hk. discriminate.
Qed.

Lemma errorOf_message (r : Response) (offered : option string) :
  error_body (body r) offered ->
  errorOf r
  = Throw (new_Error (default ("API request failed with status " +:+ pretty (status r))
                              offered)).
Proof.
  unfold errorOf. intros H.
  inversion H as [text Hb | data Hn Hm Hb | data m Hm Hne Hb]; simpl.
  - reflexivity.
  - rewrite (member_defined _ data Hn). simpl. rewrite Hm. reflexivity.
  - assert (Hn : nullish data = false) by (destruct data; try discriminate; reflexivity).
    rewrite (member_defined _ data Hn), Hm. simpl.
    pose proof (nonempty_true m Hne) as Ht.
    unfold nonempty in Ht. rewrite Ht. reflexivity.
Qed.

(** C6 (as amended). When the answer awaited for a request has a status
    outside 200..299, the panel stops loading with an error whose message is
    the body's [message] when that is a string that is not empty, and is
    "API request failed with status " followed by the status code when the
    body is not JSON, or is JSON other than null with no [message] or a
    falsy one. *)
Theorem provider_error_amended
    (rt : Runtime) (id : nat) (r : Response) (offered : option string) :
  id ∈ awaiting rt ->
  ok r = false ->
  error_body (body r) offered ->
  let rt' := arrive id (Responded r) rt in
  error (panel rt')
  = Some (Text (default ("API request failed with status " +:+ pretty (status r)) offered))
  /\ isLoading (panel rt') = false.
Proof.
  intros Hid Hok Hbody. unfold arrive. rewrite bool_decide_eq_true_2 by exact Hid.
  unfold searchKeywords_response. rewrite Hok. simpl.
  rewrite (errorOf_message r offered Hbody). split; reflexivity.
Qed.

Lemma provider_error_amended_witness :
  error (panel (arrive 0
                  (Responded (mkResponse 429
                     (Json (Object [("message", Str "quota exceeded")]))))
                  searching))
  = Some (Text "quota exceeded").
Proof.
  refine (proj1 (provider_error_amended searching 0
                   (mkResponse 429 (Json (Object [("message", Str "quota exceeded")])))
                   (Some "quota exceeded") _ _ _)).
  - vm_compute. apply list_elem_of_here.
  - reflexivity.
  - apply with_message; [reflexivity | discriminate].
Defined.

(** C6, counterexample. A response with status 500 and no parseable body
    yields the message "API request failed with status 500", which is not
    "request failed with status 500". *)
Lemma provider_error_counterexample :
  let rt' := arrive 0
               (Responded (mkResponse 500 (NotJson "Unexpected end of JSON input")))
               searching in
  error (panel rt') = Some (Text "API request failed with status 500")
  /\ error (panel rt') <> Some (Text "request failed with status 500").
Proof.
  cbv zeta. split; [vm_compute; reflexivity |].
  intros H. vm_compute in H. discriminate.
Qed.

(** C1 (as amended). Responses are applied in the order in which they
    arrive. With two requests awaited, when the answer to [b] arrives and then
    the answer to [a], the panel is what the outcome of [a] makes of what the
    outcome of [b] left: it is not loading; if [a] succeeded its keywords are
    those of [a]; if [a] failed its error is that of [a], beside the keywords
    that [b] left. *)
Theorem responses_apply_in_arrival_order
    (rt : Runtime) (a b : nat) (fa fb : FetchResult) :
  a ∈ awaiting rt -> b ∈ awaiting rt -> a <> b ->
  let after_b := arrive b fb rt in
  let after_a := arrive a fa after_b in
  panel after_a
  = handleSearch_settle (searchKeywords_response fa)
      (handleSearch_settle (searchKeywords_response fb) (panel rt))
  /\ isLoading (panel after_a) = false
  /\ (forall results, searchKeywords_response fa = Normal results ->
        keywords (panel after_a) = results)
  /\ (forall message, searchKeywords_response fa = Throw (ErrorObject message) ->
        error (panel after_a) = Some message
        /\ keywords (panel after_a) = keywords (panel after_b)).
Proof.
  intros Ha Hb Hab. cbv zeta.
  assert (Hafter : arrive a fa (arrive b fb rt)
                   = settled a (with_panel (handleSearch_settle (searchKeywords_response fa))
                        (settled b (with_panel
                           (handleSearch_settle (searchKeywords_response fb)) rt)))).
  { unfold arrive at 2. rewrite bool_decide_eq_true_2 by exact Hb.
    unfold arrive. rewrite bool_decide_eq_true_2; [reflexivity |].
    simpl. apply list_elem_of_filter. split; assumption. }
  rewrite Hafter. simpl. split; [reflexivity |]. split; [reflexivity |]. split.
  - intros results Hr. rewrite Hr. simpl.
    destruct (length results =? 0)%nat; reflexivity.
  - intros message Hm. rewrite Hm. simpl.
    unfold arrive. rewrite bool_decide_eq_true_2 by exact Hb.
    split; reflexivity.
Qed.

Lemma responses_apply_in_arrival_order_witness :
  keywords (panel (arrive 1 answer_ab (arrive 2 answer_abc two_awaited)))
  = [mkKeyword (Str "ab second") (Str "Unknown") (Str "Unknown")].
Proof.
  refine (proj1 (proj2 (proj2
            (responses_apply_in_arrival_order
               two_awaited 1 2 answer_ab answer_abc _ _ _))) _ _).
  - vm_compute. apply list_elem_of_here.
  - vm_compute. apply list_elem_of_further, list_elem_of_here.
  - discriminate.
  - vm_compute. reflexivity.
Defined.

(** C1, counterexample. In [late_answer], every event of which the page and
    the network can deliver, the query "ab" of request 1 is issued before the
    query "abc" of request 2 and answered after it. Once the answer to "abc"
    has arrived the panel shows its keyword; the late answer to "ab" then
    replaces it, and the panel ends on the keyword of the superseded query. *)
Lemma last_request_wins_counterexample :
  let before_late := run (Some "k") (overlap ++ [Arrive 2 answer_abc]) mount in
  let final := run (Some "k") late_answer mount in
  feasible (Some "k") late_answer mount = true
  /\ map keyword_param (requests final) = ["ab"; "ab"; "abc"]
  /\ awaiting two_awaited = [1; 2]
  /\ keywords (panel before_late)
     = [mkKeyword (Str "abc only") (Str "Unknown") (Str "Unknown")]
  /\ keywords (panel final)
     = [mkKeyword (Str "ab second") (Str "Unknown") (Str "Unknown")]
  /\ keywords (panel final) <> keywords (panel before_late).
Proof.
  cbv zeta. do 5 (split; [vm_compute; reflexivity |]).
  intros H. vm_compute in H. discriminate.
Qed.

(** ** Debounce *)

Lemma handleSearch_commits (key : option string) (searchQuery : option string) (rt : Runtime) :
  commits (handleSearch key searchQuery rt) = commits rt.
Proof.
  unfold handleSearch. destruct (negb _); [reflexivity |].
  destruct (searchKeywords_request _ _); reflexivity.
Qed.

Lemma fire_commits (key : option string) (value : string) (rt : Runtime) :
  commits (fire key value rt) = commits rt ++ [value].
Proof.
  unfold fire. destruct (String.eqb value _); [reflexivity |].
  unfold autoSearch. destruct (nonempty (trim _)); [| reflexivity].
  rewrite handleSearch_commits. reflexivity.
Qed.

Lemma change_edit (value : string) (rt : Runtime) :
  String.eqb value (query (panel rt)) = false ->
  change value rt
  = with_timer (Some (clock rt + quiet, value)) (with_panel (setQuery value) rt).
Proof. intros H. unfold change. rewrite H. reflexivity. Qed.

Lemma wait_before_due (key : option string) (d : nat) (value : string) (rt : Runtime) :
  timer rt = Some (clock rt + quiet, value) ->
  d < quiet ->
  wait key d rt = with_clock (clock rt + d) rt.
Proof.
  intros Ht Hd. unfold wait. rewrite Ht.
  destruct (Nat.leb_spec (clock rt + quiet) (clock rt + d)); [lia | reflexivity].
Qed.

Lemma handleSearch_keeps (key : option string) (searchQuery : option string) (rt : Runtime) :
  debouncedQuery (panel (handleSearch key searchQuery rt)) = debouncedQuery (panel rt)
  /\ timer (handleSearch key searchQuery rt) = timer rt.
Proof.
  unfold handleSearch. destruct (negb _); [split; reflexivity |].
  destruct (searchKeywords_request _ _) as [req | [message |]]; split; reflexivity.
Qed.

(** When the timer fires, [debouncedQuery] is the value it carried and no
    timer is pending. *)
Lemma fire_commits_value (key : option string) (value : string) (rt : Runtime) :
  debouncedQuery (panel (fire key value rt)) = value
  /\ timer (fire key value rt) = None.
Proof.
  unfold fire.
  destruct (String.eqb_spec value (debouncedQuery (panel rt))) as [Heq | Hne].
  - split; [simpl; symmetry; exact Heq | reflexivity].
  - unfold autoSearch.
    cbn [panel with_panel committed with_timer debouncedQuery setDebouncedQuery].
    destruct (nonempty (trim value)); [| split; reflexivity].
    destruct (handleSearch_keeps key (Some value)
                (with_panel (setDebouncedQuery value) (committed value (with_timer None rt))))
      as [-> ->].
    split; reflexivity.
Qed.

Lemma fire_new_query
    (k : string) (rt : Runtime) (v : string) :
  nonempty k = true ->
  nonempty (trim v) = true ->
  v <> debouncedQuery (panel rt) ->
  requests (fire (Some k) v rt) = requests rt ++ [mkRequest v k]
  /\ awaiting (fire (Some k) v rt) = awaiting rt ++ [length (requests rt)].
Proof.
  intros Hk Hv Hne. unfold fire.
  rewrite (proj2 (String.eqb_neq _ _) Hne).
  unfold autoSearch. cbn [panel with_panel committed with_timer debouncedQuery setDebouncedQuery].
  rewrite Hv. unfold handleSearch.
  cbn [panel with_panel committed with_timer queryToSearch].
  destruct (nonempty v) eqn:Hnv.
  - rewrite Hv. cbn [negb searchKeywords_request]. rewrite Hk. split; reflexivity.
  - unfold nonempty in Hnv. apply negb_false_iff, String.eqb_eq in Hnv. subst v.
    discriminate.
Qed.

(** While the values keep coming, the one timer of the effect is always the
    one armed by the last value; nothing is committed, nothing is sent, and
    no cell but [query] changes. *)
Lemma burst_keeps_timer (key : option string) (rest : list (nat * string)) :
  forall (value : string) (rt : Runtime),
    timer rt = Some (clock rt + quiet, value) ->
    query (panel rt) = value ->
    edits value (map snd rest) = true ->
    rapid rest = true ->
    let rt' := run key (burst rest) rt in
    timer rt' = Some (clock rt' + quiet, final value rest)
    /\ query (panel rt') = final value rest
    /\ commits rt' = commits rt
    /\ panel rt' = setQuery (final value rest) (panel rt)
    /\ requests rt' = requests rt.
Proof.
  unfold run.
  induction rest as [| [gap value'] rest IH]; intros value rt Ht Hq He Hr; simpl.
  - repeat split; try assumption. rewrite <- Hq. destruct (panel rt). reflexivity.
  - simpl in He, Hr.
    apply andb_prop in He as [Hne He]. apply andb_prop in Hr as [Hgap Hr].
    apply negb_true_iff in Hne. apply Nat.ltb_lt in Hgap.
    rewrite (wait_before_due key gap value rt Ht Hgap).
    rewrite change_edit by (simpl; rewrite Hq; exact Hne).
    specialize (IH value'
      (with_timer (Some (clock (with_clock (clock rt + gap) rt) + quiet, value'))
         (with_panel (setQuery value') (with_clock (clock rt + gap) rt)))).
    simpl in IH. apply IH; auto.
Qed.

(** C9. Let a first value be typed and further values follow, each an edit
    of the text and each sooner than the quiet interval after the one before.
    While they come nothing is committed: [debouncedQuery] and every cell but
    [query] stay as they were, no request is sent, and the one pending timer
    is the one of the last value. After the last of them the timer calls
    [setDebouncedQuery] exactly once, with the last value, once the quiet
    interval has passed: [debouncedQuery] is then the last value, no timer is
    pending, and the search that the committed value starts is a search for
    the last value. Before the interval has passed nothing is committed. *)
Theorem debounce_coalesces
    (key : option string) (rt : Runtime) (value : string)
    (rest : list (nat * string)) (d : nat) :
  edits (query (panel rt)) (value :: map snd rest) = true ->
  rapid rest = true ->
  let rt' := run key (Change value :: burst rest) rt in
  let after := step key rt' (Wait d) in
  commits rt' = commits rt
  /\ query (panel rt') = final value rest
  /\ commits after
     = (if (quiet <=? d)%nat then commits rt ++ [final value rest] else commits rt)
  /\ panel rt' = setQuery (final value rest) (panel rt)
  /\ requests rt' = requests rt
  /\ timer rt' = Some (clock rt' + quiet, final value rest)
  /\ debouncedQuery (panel after)
     = (if (quiet <=? d)%nat then final value rest else debouncedQuery (panel rt))
  /\ timer after
     = (if (quiet <=? d)%nat then None else Some (clock rt' + quiet, final value rest))
  /\ (d < quiet -> panel after = panel rt' /\ requests after = requests rt)
  /\ (quiet <= d ->
      forall k, key = Some k -> nonempty k = true ->
                nonempty (trim (final value rest)) = true ->
                final value rest <> debouncedQuery (panel rt) ->
                requests after = requests rt ++ [mkRequest (final value rest) k]).
Proof.
  intros He Hr. simpl in He. apply andb_prop in He as [Hne He].
  apply negb_true_iff in Hne. cbv zeta.
  change (run key (Change value :: burst rest) rt)
    with (run key (burst rest) (change value rt)).
  rewrite (change_edit value rt Hne).
  set (rt1 := with_timer _ _).
  destruct (burst_keeps_timer key rest value rt1) as (Ht & Hq & Hc & Hp & Hreq);
    [reflexivity | reflexivity | exact He | exact Hr |].
  cbv zeta in Ht, Hq, Hc, Hp, Hreq.
  set (rt' := run key (burst rest) rt1) in *.
  split; [exact Hc |]. split; [exact Hq |].
  assert (Hpanel : panel rt' = setQuery (final value rest) (panel rt))
    by (rewrite Hp; reflexivity).
  assert (Hdq : debouncedQuery (panel rt') = debouncedQuery (panel rt))
    by (rewrite Hpanel; reflexivity).
  cbn [step]. unfold wait. rewrite Ht.
  destruct (Nat.leb_spec quiet d) as [Hd | Hd].
  - destruct (Nat.leb_spec (clock rt' + quiet) (clock rt' + d)) as [_ | Hlt]; [| lia].
    destruct (fire_commits_value key (final value rest) (with_clock (clock rt' + d) rt'))
      as [Hfd Hft].
    split; [rewrite fire_commits; unfold with_clock; cbn [commits]; rewrite Hc; reflexivity |].
    split; [exact Hpanel |]. split; [exact Hreq |]. split; [reflexivity |].
    split; [exact Hfd |]. split; [exact Hft |]. split; [intros Hlt; lia |].
    intros _ k -> Hk Hv Hnew.
    rewrite (proj1 (fire_new_query k (with_clock (clock rt' + d) rt') (final value rest)
                      Hk Hv ltac:(cbn [panel with_clock]; rewrite Hdq; exact Hnew))).
    cbn [requests with_clock]. rewrite Hreq. reflexivity.
  - destruct (Nat.leb_spec (clock rt' + quiet) (clock rt' + d)) as [Hle | _]; [lia |].
    split; [unfold with_clock; cbn [commits]; exact Hc |].
    split; [exact Hpanel |]. split; [exact Hreq |]. split; [reflexivity |].
    split; [exact Hdq |]. split; [exact Ht |].
    split; [intros _; split; [reflexivity | exact Hreq] | intros Hle; lia].
Qed.

Lemma debounce_coalesces_witness :
  let after := step (Some "k")
                 (run (Some "k") (Change "s" :: burst [(120, "se"); (299, "seo")]) mount)
                 (Wait 300) in
  commits after = ["seo"]
  /\ debouncedQuery (panel after) = "seo"
  /\ timer after = None
  /\ requests after = [mkRequest "seo" "k"].
Proof.
  cbv zeta.
  destruct (debounce_coalesces (Some "k") mount "s" [(120, "se"); (299, "seo")] 300)
    as (_ & _ & Hc & _ & _ & _ & Hd & Ht & _ & Hr); [reflexivity | reflexivity |].
  split; [exact Hc |]. split; [exact Hd |]. split; [exact Ht |].
  exact (Hr ltac:(unfold quiet; lia) "k" eq_refl eq_refl eq_refl ltac:(discriminate)).
Defined.


(** * Further properties *)

(** ** What an event can do *)

Lemma run_invariant (key : option string) (P : Runtime -> Prop) :
  (forall rt e, P rt -> P (step key rt e)) ->
  forall events rt, P rt -> P (run key events rt).
Proof.
  intros Hstep. unfold run.
  induction events as [| e rest IH]; intros rt Hrt; simpl; [exact Hrt |].
  apply IH, Hstep, Hrt.
Qed.

(** The three ways a call of [handleSearch] goes: the query is blank; the key
    is missing; the request is sent. *)
Lemma handleSearch_cases (key : option string) (searchQuery : option string) (rt : Runtime) :
  let q := queryToSearch searchQuery (panel rt) in
  let start := with_panel (λ p, setKeywords [] (setError None (setIsLoading true p))) rt in
  (nonempty (trim q) = false
   /\ handleSearch key searchQuery rt
      = with_panel (setError (Some (Text "Please enter a search term"))) rt)
  \/ (nonempty (trim q) = true /\ key_missing key = true
      /\ handleSearch key searchQuery rt
         = with_panel (handleSearch_settle (Throw (new_Error configurationMessage))) start)
  \/ (exists k, nonempty (trim q) = true /\ key = Some k /\ nonempty k = true
      /\ handleSearch key searchQuery rt = send (mkRequest q k) start).
Proof.
  cbv zeta. unfold handleSearch.
  destruct (nonempty (trim (queryToSearch searchQuery (panel rt)))) eqn:Hq; simpl.
  - destruct key as [k |]; simpl.
    + destruct (nonempty k) eqn:Hk.
      * right. right. exists k. repeat split; assumption.
      * right. left. repeat split; assumption.
    + right. left. repeat split.
  - left. repeat split.
Qed.

Ltac search_cases key sq rt :=
  let Hq := fresh "Hq" in
  let Hk := fresh "Hk" in
  let Hne := fresh "Hne" in
  let k := fresh "k" in
  let E := fresh "E" in
  destruct (handleSearch_cases key sq rt)
    as [(Hq & E) | [(Hq & Hk & E) | (k & Hq & Hk & Hne & E)]];
  rewrite E; clear E.

(** Every event, opened up to the states it can lead to. *)
Ltac event_cases key rt e :=
  destruct e as [d | value | | | id f | t]; cbn [step];
  [ unfold wait; destruct (timer rt) as [[due value] |] eqn:Htimer;
    [ destruct (due <=? clock rt + d)%nat eqn:Hdue;
      [ unfold fire;
        destruct (String.eqb value (debouncedQuery (panel (with_clock (clock rt + d) rt))))
          eqn:Hsame;
        [ | unfold autoSearch;
            match goal with
            | |- context [nonempty (trim ?x)] => destruct (nonempty (trim x)) eqn:Hblank
            end;
            [ match goal with
              | |- context [handleSearch key ?sq ?r] => search_cases key sq r
              end | ] ]
      | ]
    | ]
  | unfold change; destruct (String.eqb value (query (panel rt))) eqn:Hsame
  | unfold handleKeyPress; destruct (isLoading (panel rt)) eqn:Hload; cbn [negb];
    [ | search_cases key (@None string) rt ]
  | search_cases key (@None string) rt
  | unfold arrive; destruct (bool_decide (id ∈ awaiting rt)) eqn:Hid;
    [ unfold handleSearch_settle;
      destruct (searchKeywords_response f) as [results | [message |]] eqn:Hresp;
      [ destruct (length results =? 0)%nat eqn:Hlen | | ]
    | ]
  | ].

(** X3: the loading flag. Whatever has happened since the page was mounted,
    the panel is not loading when no request is awaited: every answer, and a
    search that fails before it sends anything, turns the flag off. *)
Theorem settled_means_not_loading (key : option string) (events : list Event) :
  awaiting (run key events mount) = [] ->
  isLoading (panel (run key events mount)) = false.
Proof.
  apply (run_invariant key
           (λ rt, awaiting rt = [] -> isLoading (panel rt) = false)); [| reflexivity].
  clear events. intros rt e Hrt.
  event_cases key rt e; simpl in *; intros Ha; auto;
    try (apply app_eq_nil in Ha as [_ Ha]; discriminate);
    try (destruct (handleSearch_settle _ _); reflexivity).
  all: try reflexivity.
  specialize (Hrt Ha). discriminate.
Qed.

Lemma settled_means_not_loading_witness :
  isLoading (panel (run (Some "k") [Change "ab"; Wait 300; Arrive 0 answer_ab] mount)) = false.
Proof.
  apply (settled_means_not_loading (Some "k") [Change "ab"; Wait 300; Arrive 0 answer_ab]).
  vm_compute. reflexivity.
Defined.

Lemma settle_frame (c : Completion (list Keyword)) (p : Panel) :
  query (handleSearch_settle c p) = query p
  /\ debouncedQuery (handleSearch_settle c p) = debouncedQuery p
  /\ bookmarked (handleSearch_settle c p) = bookmarked p
  /\ isLoading (handleSearch_settle c p) = false.
Proof.
  destruct c as [results | [message |]]; simpl;
    try destruct (length results =? 0)%nat; repeat split.
Qed.

(** X4: the requests. Whatever has happened since the page was mounted, every
    request handed to [fetch] carries the configured key, which is not empty,
    and a query that is not blank. *)
Theorem requests_well_keyed (key : option string) (events : list Event) :
  Forall (well_keyed key) (requests (run key events mount)).
Proof.
  apply (run_invariant key (λ rt, Forall (well_keyed key) (requests rt)));
    [| apply Forall_nil; exact I].
  clear events. intros rt e Hrt.
  event_cases key rt e; simpl; try exact Hrt.
  all: apply Forall_app; split; [exact Hrt |];
    apply Forall_singleton; unfold well_keyed; simpl; repeat split; assumption.
Qed.

(** X5: one event, one request at most. An event leaves the list of requests
    as it is or adds one request at its end, which is then awaited with the
    panel loading; editing the text, an answer and a star never send. *)
Theorem step_sends_at_most_one (key : option string) (rt : Runtime) (e : Event) :
  requests (step key rt e) = requests rt
  \/ (exists r,
        requests (step key rt e) = requests rt ++ [r]
        /\ awaiting (step key rt e) = awaiting rt ++ [length (requests rt)]
        /\ isLoading (panel (step key rt e)) = true
        /\ keywords (panel (step key rt e)) = []
        /\ error (panel (step key rt e)) = None
        /\ match e with
           | Wait _ | PressEnter | Click => True
           | Change _ | Arrive _ _ | Toggle _ => False
           end).
Proof.
  event_cases key rt e; simpl; try (left; reflexivity);
    right; eexists; repeat split.
Qed.

(** X6: the debounce timer. Whatever has happened since the page was mounted,
    a pending timer carries the current text of the input and is due within
    the quiet interval, and when no timer is pending the committed query is
    the current text. *)
Theorem timer_stays_current (key : option string) (events : list Event) :
  timer_current (run key events mount).
Proof.
  apply (run_invariant key timer_current);
    [| unfold timer_current, mount, quiet; simpl; repeat split; lia].
  clear events. intros rt e Hrt. unfold timer_current in *.
  event_cases key rt e; simpl in *;
    rewrite ?Htimer, ?(proj1 (settle_frame _ _)), ?(proj1 (proj2 (settle_frame _ _)));
    try exact Hrt; try apply Hrt.
  - apply String.eqb_eq in Hsame. destruct Hrt as (Hv & _). congruence.
  - apply Nat.leb_gt in Hdue. destruct Hrt as (Hv & Hlo & Hhi).
    split; [exact Hv | split; lia].
  - unfold quiet. split; [reflexivity | split; lia].
Qed.

(** ** Without a key *)

Lemma run_requests_without_key_witness :
  requests (run None [Change "ab"; Click; Wait 300; PressEnter] mount) = [].
Proof.
  apply (run_requests_without_key None [Change "ab"; Click; Wait 300; PressEnter] mount).
  reflexivity.
Defined.

Lemma inert_run (key : option string) (events : list Event) :
  key_missing key = true ->
  forall rt,
    (panel rt = initialPanel /\ requests rt = [] /\ awaiting rt = []
     /\ match timer rt with Some (_, value) => value = "" | None => True end) ->
    feasible key events rt = true ->
    panel (run key events rt) = initialPanel /\ requests (run key events rt) = [].
Proof.
  intros Hkey. unfold run.
  induction events as [| e rest IH]; intros rt Hinv Hf; simpl.
  - destruct Hinv as (Hp & Hr & _). split; assumption.
  - simpl in Hf. apply andb_prop in Hf as [He Hrest].
    apply IH; [| exact Hrest]. clear IH Hrest.
    destruct rt as [p c tm rq aw cm]. simpl in Hinv.
    destruct Hinv as (-> & -> & -> & Ht).
    destruct e as [d | value | | | id f | t]; simpl in *.
    + unfold wait. simpl. destruct tm as [[due value] |]; [| repeat split].
      subst value. destruct (due <=? c + d)%nat; repeat split.
    + unfold disabled in He. simpl in He. rewrite Hkey in He. discriminate.
    + unfold disabled in He. simpl in He. rewrite Hkey in He. discriminate.
    + unfold disabled in He. simpl in He. rewrite Hkey in He. discriminate.
    + discriminate.
    + discriminate.
Qed.

(** X2: a page without a key stays as it was mounted. When the key is not
    configured, no sequence of events that the page can deliver changes any
    of the six state cells or sends a request; the banner stays and the input
    and the button stay disabled. *)
Theorem missing_key_disables_panel (key : option string) (events : list Event) :
  key_missing key = true ->
  feasible key events mount = true ->
  let rt := run key events mount in
  panel rt = initialPanel
  /\ requests rt = []
  /\ keyBanner (view key (panel rt)) = true
  /\ controlsDisabled (view key (panel rt)) = true.
Proof.
  intros Hkey Hf. cbv zeta.
  destruct (inert_run key events Hkey mount) as (Hp & Hr);
    [repeat split | exact Hf |].
  rewrite Hp. unfold view. simpl. rewrite Hkey. repeat split; assumption.
Qed.

Lemma missing_key_disables_panel_witness :
  panel (run (Some "") [Wait 120; Wait 500] mount) = initialPanel.
Proof.
  refine (proj1 (missing_key_disables_panel (Some "") [Wait 120; Wait 500] _ _));
    reflexivity.
Defined.

(** ** Bookmarks and the stars *)

Lemma toggle_elem (t term : string) (prev : list string) :
  t ∈ toggleBookmark term prev
  <-> (if decide (t = term) then t ∉ prev else t ∈ prev).
Proof.
  unfold toggleBookmark.
  case_bool_decide as Hin; destruct (decide (t = term)) as [-> | Hne].
  - rewrite list_elem_of_filter. tauto.
  - rewrite list_elem_of_filter. tauto.
  - rewrite elem_of_app, list_elem_of_singleton. tauto.
  - rewrite elem_of_app, list_elem_of_singleton. tauto.
Qed.

Lemma toggle_elem_bool (t term : string) (prev : list string) :
  bool_decide (t ∈ toggleBookmark term prev)
  = xorb (String.eqb t term) (bool_decide (t ∈ prev)).
Proof.
  pose proof (toggle_elem t term prev) as H.
  destruct (String.eqb_spec t term) as [-> | Hne].
  - destruct (decide (term = term)) as [_ | Hc]; [| contradiction].
    destruct (decide (term ∈ prev)) as [Hp | Hp].
    + rewrite (bool_decide_eq_true_2 (term ∈ prev) Hp). simpl.
      apply bool_decide_eq_false_2. tauto.
    + rewrite (bool_decide_eq_false_2 (term ∈ prev) Hp). simpl.
      apply bool_decide_eq_true_2. tauto.
  - destruct (decide (t = term)) as [Hc | _]; [contradiction |].
    simpl. apply bool_decide_ext. exact H.
Qed.

Lemma filter_other_id (term : string) (l : list string) :
  term ∉ l -> filter (λ t, t ≠ term) l = l.
Proof.
  induction l as [| x l IH]; intros Hnot; [reflexivity |].
  rewrite filter_cons. rewrite not_elem_of_cons in Hnot. destruct Hnot as [Hx Hl].
  destruct (decide (x ≠ term)) as [_ | Hc]; [| exfalso; apply Hc; congruence].
  rewrite (IH Hl). reflexivity.
Qed.

Lemma filter_other_moves (term : string) (l : list string) :
  NoDup l -> term ∈ l -> filter (λ t, t ≠ term) l ++ [term] ≡ₚ l.
Proof.
  induction l as [| x l IH]; intros Hnd Hin; [inversion Hin |].
  apply NoDup_cons in Hnd as [Hx Hnd]. rewrite filter_cons.
  destruct (decide (x ≠ term)) as [Hne | Heq].
  - apply elem_of_cons in Hin as [-> | Hin]; [contradiction |].
    simpl. rewrite (IH Hnd Hin). reflexivity.
  - assert (x = term) as -> by (destruct (decide (x = term)); [assumption | contradiction]).
    rewrite (filter_other_id term l Hx). symmetry. apply Permutation_cons_append.
Qed.

(** X7: toggling twice, exactly. Toggling a term that is not bookmarked twice
    gives back the very same array. In an array without repeats, toggling a
    bookmarked term twice gives the same terms with that term moved to the
    end. *)
Theorem toggleBookmark_twice (prev : list string) (term : string) :
  (term ∉ prev -> toggleBookmark term (toggleBookmark term prev) = prev)
  /\ (term ∈ prev -> NoDup prev ->
      toggleBookmark term (toggleBookmark term prev)
      = filter (λ t, t ≠ term) prev ++ [term]
      /\ toggleBookmark term (toggleBookmark term prev) ≡ₚ prev).
Proof.
  split.
  - intros Hnot. unfold toggleBookmark at 2.
    rewrite bool_decide_eq_false_2 by exact Hnot.
    unfold toggleBookmark. rewrite bool_decide_eq_true_2
      by (rewrite elem_of_app, list_elem_of_singleton; tauto).
    rewrite filter_app, (filter_other_id term prev Hnot).
    rewrite filter_cons. destruct (decide (term ≠ term)) as [Hc | _]; [contradiction |].
    apply app_nil_r.
  - intros Hin Hnd.
    assert (Heq : toggleBookmark term (toggleBookmark term prev)
                  = filter (λ t, t ≠ term) prev ++ [term]).
    { unfold toggleBookmark at 2. rewrite bool_decide_eq_true_2 by exact Hin.
      unfold toggleBookmark. rewrite bool_decide_eq_false_2
        by (rewrite list_elem_of_filter; tauto).
      reflexivity. }
    split; [exact Heq |]. rewrite Heq. apply filter_other_moves; assumption.
Qed.

Lemma toggleBookmark_twice_witness :
  toggleBookmark "seo" (toggleBookmark "seo" ["ads"; "seo"; "crm"]) = ["ads"; "crm"; "seo"]
  /\ toggleBookmark "seo" (toggleBookmark "seo" ["ads"; "crm"]) = ["ads"; "crm"].
Proof.
  split.
  - refine (eq_trans
              (proj1 (proj2 (toggleBookmark_twice ["ads"; "seo"; "crm"] "seo") _ _)) _).
    + apply list_elem_of_further, list_elem_of_here.
    + apply NoDup_ListNoDup. repeat constructor; simpl; intuition discriminate.
    + vm_compute. reflexivity.
  - refine (proj1 (toggleBookmark_twice ["ads"; "crm"] "seo") _).
    intros H. repeat (apply elem_of_cons in H as [H | H]; [discriminate |]). inversion H.
Defined.

Lemma toggleBookmark_NoDup (prev : list string) (term : string) :
  NoDup prev -> NoDup (toggleBookmark term prev).
Proof.
  intros Hnd. unfold toggleBookmark. case_bool_decide as Hin.
  - apply NoDup_filter, Hnd.
  - apply NoDup_app. split; [exact Hnd |]. split; [| apply NoDup_singleton].
    intros x Hx Hx'. apply list_elem_of_singleton in Hx'. subst x. contradiction.
Qed.

Lemma step_bookmarked (key : option string) (rt : Runtime) (e : Event) :
  bookmarked (panel (step key rt e))
  = match e with
    | Toggle t => toggleBookmark t (bookmarked (panel rt))
    | _ => bookmarked (panel rt)
    end.
Proof. event_cases key rt e; reflexivity. Qed.

Lemma run_bookmarked
    (key : option string) (events : list Event) (rt : Runtime) :
  bookmarked (panel (run key events rt))
  = fold_left (λ b t, toggleBookmark t b) (toggles events) (bookmarked (panel rt)).
Proof.
  unfold run. revert rt.
  induction events as [| e rest IH]; intros rt; [reflexivity |].
  simpl fold_left at 1. rewrite IH, step_bookmarked.
  destruct e; reflexivity.
Qed.

Lemma fold_toggle_parity (t : string) (ts : list string) :
  forall b : list string,
    bool_decide (t ∈ fold_left (λ b t', toggleBookmark t' b) ts b)
    = xorb (odd_times t ts) (bool_decide (t ∈ b)).
Proof.
  induction ts as [| t' ts IH]; intros b; simpl; [reflexivity |].
  rewrite IH, toggle_elem_bool.
  destruct (String.eqb t t'), (odd_times t ts), (bool_decide (t ∈ b)); reflexivity.
Qed.

Lemma fold_toggle_NoDup (ts : list string) :
  forall b : list string,
    NoDup b -> NoDup (fold_left (λ b t', toggleBookmark t' b) ts b).
Proof.
  induction ts as [| t' ts IH]; intros b Hb; simpl; [exact Hb |].
  apply IH, toggleBookmark_NoDup, Hb.
Qed.

(** X8: bookmarks follow the stars only. After any sequence of events the
    bookmarks are what the clicked stars, in their order, make of the
    bookmarks before: typing, searching, answers and the passing of time
    never change them. A term's membership has changed exactly when the
    number of clicks on its star is odd, and bookmarks without repeats stay
    without repeats. *)
Theorem bookmarks_follow_toggles
    (key : option string) (events : list Event) (rt : Runtime) (t : string) :
  bookmarked (panel (run key events rt))
  = fold_left (λ b t', toggleBookmark t' b) (toggles events) (bookmarked (panel rt))
  /\ bool_decide (t ∈ bookmarked (panel (run key events rt)))
     = xorb (odd_times t (toggles events)) (bool_decide (t ∈ bookmarked (panel rt)))
  /\ (NoDup (bookmarked (panel rt)) -> NoDup (bookmarked (panel (run key events rt)))).
Proof.
  rewrite run_bookmarked. split; [reflexivity |]. split.
  - apply fold_toggle_parity.
  - apply fold_toggle_NoDup.
Qed.

Lemma bookmarks_follow_toggles_witness :
  bookmarked (panel (run (Some "k") [Toggle "seo"; Change "ab"; Toggle "crm";
                                     Wait 300; Toggle "seo"] mount))
  = ["crm"].
Proof.
  rewrite (proj1 (bookmarks_follow_toggles (Some "k")
                    [Toggle "seo"; Change "ab"; Toggle "crm"; Wait 300; Toggle "seo"]
                    mount "seo")).
  reflexivity.
Defined.

Lemma card_restar (t : string) (b : list string) (k : Keyword) :
  card (toggleBookmark t b) k = restar t (card b k).
Proof.
  unfold card, restar, includes. simpl.
  destruct (term k) as [| | | | s | |]; try reflexivity.
  rewrite toggle_elem_bool.
  destruct (String.eqb s t), (bool_decide (s ∈ b)); reflexivity.
Qed.

(** X9: a click on a star. A click on the star of the term [t] changes nothing
    on the page but the stars: the card of a keyword whose term is [t] gets
    its star lit or unlit and its label swapped, every other card and every
    other part of the page stays as it was. *)
Theorem star_click_flips_star (key : option string) (rt : Runtime) (t : string) :
  let before := view key (panel rt) in
  view key (panel (step key rt (Toggle t)))
  = mkView (keyBanner before) (inputValue before) (controlsDisabled before)
           (buttonText before) (loadingShown before) (errorShown before)
           ((λ shown, (fst shown, map (restar t) (snd shown))) <$> resultsShown before).
Proof.
  cbv zeta. unfold view. simpl.
  destruct (negb (isLoading (panel rt)) && (0 <? length (keywords (panel rt)))%nat);
    simpl; [| reflexivity].
  f_equal. f_equal. f_equal. rewrite map_map.
  apply map_ext. intros k. apply card_restar.
Qed.

(** ** Formatters, again *)

Lemma upper_upper (c : ascii) : upper (upper c) = upper c.
Proof. destruct c as [[] [] [] [] [] [] [] []]; reflexivity. Qed.

Lemma lower_lower (c : ascii) : lower (lower c) = lower c.
Proof. destruct c as [[] [] [] [] [] [] [] []]; reflexivity. Qed.

Lemma upper_lower (c : ascii) : upper (lower c) = upper c.
Proof. destruct c as [[] [] [] [] [] [] [] []]; reflexivity. Qed.

Lemma lower_upper (c : ascii) : lower (upper c) = lower c.
Proof. destruct c as [[] [] [] [] [] [] [] []]; reflexivity. Qed.

Lemma upper_not_n (c : ascii) : upper c <> "n"%char.
Proof. destruct c as [[] [] [] [] [] [] [] []]; discriminate. Qed.

Lemma lower_not_U (c : ascii) : lower c <> "U"%char.
Proof. destruct c as [[] [] [] [] [] [] [] []]; discriminate. Qed.

Lemma map_string_twice (f g h : ascii -> ascii) (s : string) :
  (forall c, f (g c) = h c) -> map_string f (map_string g s) = map_string h s.
Proof.
  intros H. induction s as [| c rest IH]; simpl; [reflexivity |].
  rewrite H, IH. reflexivity.
Qed.

Lemma formatDifficultyLabel_cons (c : ascii) (rest : string) :
  formatDifficultyLabel (String c rest) = String (upper c) (toLowerCase rest).
Proof.
  unfold formatDifficultyLabel.
  replace (nonempty (String c rest)) with true by reflexivity. cbn [negb orb].
  destruct (String.eqb_spec (String c rest) "Unknown") as [Heq | _]; [| reflexivity].
  injection Heq as -> ->. reflexivity.
Qed.

(** X10: the difficulty label. The difficulty formatter never returns the empty
    string, formatting its own result changes nothing, and the letter case of
    its input does not matter: a label, its upper-case form and its lower-case
    form are all shown the same. *)
Theorem formatDifficultyLabel_stable (label : string) :
  formatDifficultyLabel label <> ""
  /\ formatDifficultyLabel (formatDifficultyLabel label) = formatDifficultyLabel label
  /\ formatDifficultyLabel (toUpperCase label) = formatDifficultyLabel label
  /\ formatDifficultyLabel (toLowerCase label) = formatDifficultyLabel label.
Proof.
  destruct label as [| c rest]; [repeat split; discriminate |].
  rewrite (formatDifficultyLabel_cons c rest).
  unfold toUpperCase, toLowerCase. cbn [map_string].
  rewrite !formatDifficultyLabel_cons. unfold toLowerCase.
  rewrite upper_upper, upper_lower.
  rewrite !(map_string_twice lower lower lower) by apply lower_lower.
  rewrite (map_string_twice lower upper lower) by apply lower_upper.
  repeat split. discriminate.
Qed.

(** X11: the volume label. When the volume formatter returns text, the text is
    not empty and formatting it again returns it unchanged. *)
Theorem formatVolumeLabel_stable (label text : string) :
  formatVolumeLabel label = Shown text ->
  text <> "" /\ formatVolumeLabel text = Shown text.
Proof.
  unfold formatVolumeLabel at 1.
  destruct (nonempty label) eqn:Hne; cbn [negb orb];
    [| intros [= <-]; split; [discriminate | reflexivity]].
  destruct (String.eqb label "Unknown") eqn:Hunknown;
    [intros [= <-]; split; [discriminate | reflexivity] |].
  unfold volumeLabels, assoc.
  repeat match goal with
         | |- context [String.eqb ?k label] =>
             destruct (String.eqb k label) eqn:?;
             [intros [= <-]; split; [discriminate | reflexivity] |]
         end.
  destruct (inherited label) eqn:Hinh; [discriminate |].
  intros [= <-]. split.
  - intros ->. discriminate.
  - unfold formatVolumeLabel, volumeLabels, assoc.
    rewrite Hne, Hunknown, Hinh. cbn [negb orb].
    repeat match goal with
           | H : String.eqb _ label = false |- _ => rewrite H; clear H
           end.
    reflexivity.
Qed.

Lemma formatVolumeLabel_stable_witness :
  formatVolumeLabel "10,000+" = Shown "10,000+".
Proof.
  refine (proj2 (formatVolumeLabel_stable "MoreThanTenThousand" "10,000+" _)).
  reflexivity.
Defined.

(** ** The normalizer, again *)

Lemma mapM_Normal {A B} (f : A -> Completion B) (l : list A) (ys : list B) :
  mapM f l = Normal ys -> Forall2 (λ x y, f x = Normal y) l ys.
Proof.
  revert ys. induction l as [| x rest IH]; intros ys; simpl.
  - intros [= <-]. constructor.
  - destruct (f x) as [y |] eqn:Hx; simpl; [| discriminate].
    destruct (mapM f rest) as [ys' |]; simpl; [| discriminate].
    intros [= <-]. constructor; [exact Hx | apply IH; reflexivity].
Qed.

Lemma toKeyword_nullish (item : Value) :
  nullish item = true ->
  toKeyword item = Throw (ErrorObject (EngineText (ReadOfNullish "searchVolume"))).
Proof. destruct item; simpl; intros H; try discriminate; reflexivity. Qed.

Lemma toKeyword_fields (item : Value) (k : Keyword) :
  toKeyword item = Normal k ->
  truthy (difficulty k) = true
  /\ (is_number (volume k) || truthy (volume k)) = true.
Proof.
  destruct (nullish item) eqn:Hn.
  - rewrite (toKeyword_nullish item Hn). discriminate.
  - rewrite (toKeyword_defined item Hn). intros [= <-].
    unfold keywordOf. cbn [difficulty volume].
    set (ev := or_value (or_value _ _) _). split.
    + unfold or_value.
      destruct (truthy (opt_member "difficultyLabel" item)) eqn:Hd; [exact Hd | reflexivity].
    + destruct (is_number ev) eqn:Hv; [rewrite Hv; reflexivity |].
      unfold or_value.
      destruct (truthy (opt_member "volumeLabel" item)) eqn:Hl;
        [rewrite Hl; apply orb_true_r | reflexivity].
Qed.

(** X12: no blank cell. Whenever the normalizer returns, from whatever body,
    every keyword has a difficulty that is truthy and a volume that is a
    number or is truthy: a field the provider left out or left empty has been
    replaced by "Unknown". *)
Theorem normalized_fields_present (data : Value) (ks : list Keyword) :
  normalize data = Normal ks ->
  Forall (λ k, truthy (difficulty k) = true
               /\ (is_number (volume k) || truthy (volume k)) = true) ks.
Proof.
  unfold normalize. destruct (member "data" data) as [inner |]; simpl; [| discriminate].
  destruct (spread (ideas "allIdeas" inner)) as [a |]; simpl; [| discriminate].
  destruct (spread (ideas "questionIdeas" inner)) as [q |]; simpl; [| discriminate].
  intros H. apply mapM_Normal in H.
  induction H as [| item k items ks' Hk _ IH]; constructor; [| exact IH].
  apply (toKeyword_fields item k Hk).
Qed.

Lemma normalized_fields_present_witness :
  Forall (λ k, truthy (difficulty k) = true
               /\ (is_number (volume k) || truthy (volume k)) = true)
         [mkKeyword (Str "x") (Str "LessThanOneHundred") (Str "Unknown");
          mkKeyword (Str "y") (Str "Unknown") (Str "Unknown")].
Proof.
  apply (normalized_fields_present (payload [zero_first] [empty_label])).
  reflexivity.
Defined.

Lemma mapM_toKeyword_nullish (items : list Value) :
  existsb nullish items = true ->
  mapM toKeyword items = Throw (ErrorObject (EngineText (ReadOfNullish "searchVolume"))).
Proof.
  induction items as [| item rest IH]; simpl; [discriminate |].
  destruct (nullish item) eqn:Hn; simpl.
  - intros _. rewrite (toKeyword_nullish item Hn). reflexivity.
  - intros Hrest. rewrite (toKeyword_defined item Hn), (IH Hrest). reflexivity.
Qed.

(** X13: one null item loses the batch. For a parsed body other than null whose
    collections are arrays (or missing), a single null among the items makes
    the normalizer throw the engine's error for reading [searchVolume] of
    null: none of the other items is returned. *)
Theorem null_item_aborts (data : Value) (a q : list Value) :
  nullish data = false ->
  collection "allIdeas" data a ->
  collection "questionIdeas" data q ->
  existsb nullish (a ++ q) = true ->
  normalize data = Throw (ErrorObject (EngineText (ReadOfNullish "searchVolume"))).
Proof.
  intros Hdata Ha Hq Hnull. unfold normalize.
  rewrite (member_defined _ data Hdata). simpl.
  rewrite (spread_ideas _ _ _ Ha), (spread_ideas _ _ _ Hq). simpl.
  apply mapM_toKeyword_nullish, Hnull.
Qed.

Lemma null_item_aborts_witness :
  normalize (payload [sample_x; Null] [sample_y])
  = Throw (ErrorObject (EngineText (ReadOfNullish "searchVolume"))).
Proof.
  apply (null_item_aborts (payload [sample_x; Null] [sample_y]) [sample_x; Null] [sample_y]).
  - reflexivity.
  - apply found. reflexivity.
  - apply found. reflexivity.
  - reflexivity.
Defined.

(** ** Answers *)

Lemma errorOf_throws (r : Response) :
  exists message, errorOf r = Throw (ErrorObject message).
Proof.
  unfold errorOf.
  destruct (member "message" _) as [message | t] eqn:Hm; simpl.
  - eexists. reflexivity.
  - destruct (body r) as [[] | text]; simpl in Hm; try discriminate;
      injection Hm as <-; eexists; reflexivity.
Qed.

(** X14: a failed status never loads keywords. When the answer awaited for a
    request has a status outside 200..299, whatever its body (a well-formed
    payload included), the keywords stay as they were, an error message is
    set and the panel stops loading. *)
Theorem failed_status_never_loads (rt : Runtime) (id : nat) (r : Response) :
  id ∈ awaiting rt ->
  ok r = false ->
  let rt' := arrive id (Responded r) rt in
  keywords (panel rt') = keywords (panel rt)
  /\ (exists message, error (panel rt') = Some message)
  /\ isLoading (panel rt') = false.
Proof.
  intros Hid Hok. cbv zeta. unfold arrive.
  rewrite bool_decide_eq_true_2 by exact Hid.
  unfold searchKeywords_response. rewrite Hok. cbn [negb].
  destruct (errorOf_throws r) as [message ->]. simpl.
  split; [reflexivity |]. split; [eexists |]; reflexivity.
Qed.

Lemma failed_status_never_loads_witness :
  keywords (panel (arrive 0 (Responded (mkResponse 404 (Json (payload [sample_x] []))))
                     searching)) = [].
Proof.
  refine (proj1 (failed_status_never_loads searching 0
                   (mkResponse 404 (Json (payload [sample_x] []))) _ _)).
  - vm_compute. apply list_elem_of_here.
  - reflexivity.
Defined.

(** X15: every answer settles the search. When the answer awaited for a request
    arrives, whatever it is, the request is no longer awaited, no request is
    sent, the panel is not loading, and it holds an error message or at least
    one keyword. *)
Theorem every_answer_settles (rt : Runtime) (id : nat) (f : FetchResult) :
  id ∈ awaiting rt ->
  let rt' := arrive id f rt in
  isLoading (panel rt') = false
  /\ (id ∉ awaiting rt')
  /\ requests rt' = requests rt
  /\ (error (panel rt') <> None \/ keywords (panel rt') <> []).
Proof.
  intros Hid. cbv zeta. unfold arrive.
  rewrite bool_decide_eq_true_2 by exact Hid. simpl.
  split; [reflexivity |]. split.
  { rewrite list_elem_of_filter. tauto. }
  split; [reflexivity |].
  unfold handleSearch_settle.
  destruct (searchKeywords_response f) as [results | [message |]]; simpl.
  - destruct results as [| k rest]; simpl; [left | right]; discriminate.
  - left. discriminate.
  - left. discriminate.
Qed.

Lemma every_answer_settles_witness :
  isLoading (panel (arrive 0 (Failed "Failed to fetch") searching)) = false.
Proof.
  refine (proj1 (every_answer_settles searching 0 (Failed "Failed to fetch") _)).
  vm_compute. apply list_elem_of_here.
Defined.

(** X16: an empty result. When the awaited answer is a success whose body is
    not null and offers no item in either collection, the panel stops loading
    with no keyword and the message "No keywords found for this query"; the
    page shows that message and no result list. *)
Theorem empty_result_is_reported
    (key : option string) (rt : Runtime) (id : nat) (r : Response) (data : Value) :
  id ∈ awaiting rt ->
  ok r = true ->
  body r = Json data ->
  nullish data = false ->
  collection "allIdeas" data [] ->
  collection "questionIdeas" data [] ->
  let p := panel (arrive id (Responded r) rt) in
  keywords p = []
  /\ error p = Some (Text "No keywords found for this query")
  /\ isLoading p = false
  /\ errorShown (view key p) = Some (Text "No keywords found for this query")
  /\ resultsShown (view key p) = None.
Proof.
  intros Hid Hok Hbody Hdata Ha Hq. cbv zeta. unfold arrive.
  rewrite bool_decide_eq_true_2 by exact Hid.
  unfold searchKeywords_response. rewrite Hok, Hbody. cbn [negb].
  rewrite (normalize_collections data [] [] Hdata Ha Hq eq_refl).
  simpl. repeat split.
Qed.

Lemma empty_result_is_reported_witness :
  error (panel (arrive 0 (okay (Object [])) searching))
  = Some (Text "No keywords found for this query").
Proof.
  refine (proj1 (proj2 (empty_result_is_reported (Some "k") searching 0
                          (mkResponse 200 (Json (Object []))) (Object []) _ _ _ _ _ _))).
  - vm_compute. apply list_elem_of_here.
  - reflexivity.
  - reflexivity.
  - reflexivity.
  - apply absent. left. reflexivity.
  - apply absent. left. reflexivity.
Defined.

(** ** The URL *)

Lemma append_cons (x : ascii) (a b : string) : String x a +:+ b = String x (a +:+ b).
Proof. reflexivity. Qed.

Lemma append_assoc (a b c : string) : (a +:+ b) +:+ c = a +:+ (b +:+ c).
Proof.
  induction a as [| x a IH]; [reflexivity |].
  rewrite !append_cons, IH. reflexivity.
Qed.

Lemma append_inj_l (p a b : string) : p +:+ a = p +:+ b -> a = b.
Proof.
  induction p as [| x p IH]; [auto |].
  rewrite !append_cons. intros [= H]. apply IH, H.
Qed.

Lemma string_forall_app (p : ascii -> bool) (a b : string) :
  string_forall p (a +:+ b) = string_forall p a && string_forall p b.
Proof.
  induction a as [| x a IH]; [reflexivity |].
  rewrite append_cons. cbn [string_forall]. rewrite IH. apply andb_assoc.
Qed.

Lemma encodeChar_safe (c : ascii) :
  string_forall (λ x, unreserved x || Ascii.eqb x "%") (encodeChar c) = true.
Proof. destruct c as [[] [] [] [] [] [] [] []]; reflexivity. Qed.

Lemma safe_is_no_delimiter (c : ascii) :
  unreserved c || Ascii.eqb c "%" = true ->
  negb (existsb (Ascii.eqb c) (list_ascii_of_string "&=?#/+ ,:;@$")) = true.
Proof. destruct c as [[] [] [] [] [] [] [] []]; simpl; intros H; try reflexivity; discriminate. Qed.

Lemma encodeChar_unreserved (c : ascii) :
  unreserved c = true -> encodeChar c = String c "".
Proof. intros H. unfold encodeChar. rewrite H. reflexivity. Qed.

Lemma string_forall_impl (p q : ascii -> bool) :
  (forall c, p c = true -> q c = true) ->
  forall s, string_forall p s = true -> string_forall q s = true.
Proof.
  intros Hpq. induction s as [| c rest IH]; cbn [string_forall]; [reflexivity |].
  intros H. apply andb_prop in H as [Hc Hrest].
  rewrite (Hpq c Hc), (IH Hrest). reflexivity.
Qed.

Lemma encodeURIComponent_unreserved_only (s : string) :
  string_forall (λ x, unreserved x || Ascii.eqb x "%") (encodeURIComponent s) = true.
Proof.
  induction s as [| c rest IH]; [reflexivity |].
  cbn [encodeURIComponent]. rewrite string_forall_app, IH, encodeChar_safe. reflexivity.
Qed.

Lemma encodeURIComponent_id (s : string) :
  string_forall unreserved s = true -> encodeURIComponent s = s.
Proof.
  induction s as [| c rest IH]; [reflexivity |].
  cbn [string_forall encodeURIComponent]. intros H. apply andb_prop in H as [Hc Hrest].
  rewrite (encodeChar_unreserved c Hc), (IH Hrest). reflexivity.
Qed.

(** X18: the encoded query. Whatever the query, its encoded form consists of
    unreserved characters and percent signs only, so it holds none of the
    characters that delimit a URL ([& = ? # / + , : ; @ $] and the space); and
    a query of unreserved characters is sent as it is. *)
Theorem encodeURIComponent_safe (s : string) :
  string_forall (λ x, unreserved x || Ascii.eqb x "%") (encodeURIComponent s) = true
  /\ string_forall
       (λ x, negb (existsb (Ascii.eqb x) (list_ascii_of_string "&=?#/+ ,:;@$")))
       (encodeURIComponent s) = true
  /\ (string_forall unreserved s = true -> encodeURIComponent s = s).
Proof.
  split; [apply encodeURIComponent_unreserved_only |]. split.
  - apply (string_forall_impl _ _ safe_is_no_delimiter),
      encodeURIComponent_unreserved_only.
  - apply encodeURIComponent_id.
Qed.

Lemma encodeURIComponent_safe_witness :
  encodeURIComponent "seo-tools_2024" = "seo-tools_2024".
Proof.
  refine (proj2 (proj2 (encodeURIComponent_safe "seo-tools_2024")) _).
  reflexivity.
Defined.

Lemma decodeChar_encodeChar (c : ascii) (rest : string) :
  decodeChar (encodeChar c +:+ rest) = Some (c, rest).
Proof. destruct c as [[] [] [] [] [] [] [] []]; reflexivity. Qed.

Lemma encode_with_tail_inj (tail : string) :
  decodeChar tail = None ->
  forall q1 q2,
    encodeURIComponent q1 +:+ tail = encodeURIComponent q2 +:+ tail -> q1 = q2.
Proof.
  intros Htail.
  induction q1 as [| c1 r1 IH]; intros [| c2 r2]; cbn [encodeURIComponent];
    rewrite ?append_assoc; intros H.
  - reflexivity.
  - change (EmptyString +:+ tail) with tail in H.
    apply (f_equal decodeChar) in H.
    rewrite decodeChar_encodeChar, Htail in H. discriminate.
  - change (EmptyString +:+ tail) with tail in H.
    apply (f_equal decodeChar) in H.
    rewrite decodeChar_encodeChar, Htail in H. discriminate.
  - apply (f_equal decodeChar) in H.
    rewrite !decodeChar_encodeChar in H. injection H as -> H.
    rewrite (IH r2 H). reflexivity.
Qed.

(** X19: one URL per query. Two different queries never give the same URL: the
    encoding of the query loses nothing. *)
Theorem url_distinct (q1 q2 : string) : q1 <> q2 -> url q1 <> url q2.
Proof.
  intros Hne Heq. apply Hne. unfold url in Heq.
  apply append_inj_l in Heq.
  apply (encode_with_tail_inj "&country=us"); [reflexivity | exact Heq].
Qed.

Lemma url_distinct_witness : url "a b" <> url "a+b".
Proof. apply (url_distinct "a b" "a+b"). discriminate. Defined.

(** ** The debounce timer and the searches it starts *)

Lemma setQuery_back (v : string) (p : Panel) :
  setQuery (query p) (setQuery v p) = p.
Proof. destruct p. reflexivity. Qed.

(** X20: an edit undone in time. When the committed query is the current text,
    an edit that is undone sooner than the quiet interval starts no search:
    once the interval has passed the timer has fired once, for the old text,
    no request was sent and the six state cells are as they were. *)
Theorem edit_undone_sends_nothing
    (key : option string) (rt : Runtime) (v : string) (gap d : nat) :
  debouncedQuery (panel rt) = query (panel rt) ->
  v <> query (panel rt) ->
  gap < quiet ->
  quiet <= d ->
  let rt' := run key [Change v; Wait gap; Change (query (panel rt)); Wait d] rt in
  panel rt' = panel rt
  /\ requests rt' = requests rt
  /\ commits rt' = commits rt ++ [query (panel rt)]
  /\ timer rt' = None.
Proof.
  intros Hdq Hv Hgap Hd. cbv zeta. unfold run. cbn [fold_left step].
  assert (Hne : String.eqb v (query (panel rt)) = false)
    by (apply String.eqb_neq; exact Hv).
  rewrite (change_edit v rt Hne).
  set (rt1 := with_timer _ _).
  rewrite (wait_before_due key gap v rt1 eq_refl Hgap).
  set (rt2 := with_clock _ rt1).
  assert (Hne2 : String.eqb (query (panel rt)) (query (panel rt2)) = false).
  { simpl. rewrite String.eqb_sym. exact Hne. }
  rewrite (change_edit _ rt2 Hne2).
  unfold wait. cbn [timer with_timer with_panel clock].
  destruct (Nat.leb_spec (clock rt2 + quiet) (clock rt2 + d)) as [_ | Hlt]; [| lia].
  unfold fire. cbn [panel with_clock with_timer with_panel committed debouncedQuery setQuery].
  change (debouncedQuery (panel rt2)) with (debouncedQuery (panel rt)).
  rewrite Hdq, String.eqb_refl. subst rt2 rt1. simpl.
  split; [apply setQuery_back |]. repeat split.
Qed.

Lemma edit_undone_sends_nothing_witness :
  requests (run (Some "k") [Change "a"; Wait 100; Change ""; Wait 300] mount) = [].
Proof.
  refine (proj1 (proj2 (edit_undone_sends_nothing (Some "k") mount "a" 100 300 _ _ _ _)));
    [reflexivity | discriminate | unfold quiet; lia | unfold quiet; lia].
Defined.

(** X21: a committed query is searched as typed. When the key is configured and
    the timer commits a value that differs from the committed query and is
    not blank, exactly one request is sent; it carries that value as it was
    typed, surrounding white space included, and the key; it is awaited and
    the panel is loading with no keyword and no error. *)
Theorem committed_query_is_searched
    (k : string) (rt : Runtime) (v : string) :
  nonempty k = true ->
  nonempty (trim v) = true ->
  v <> debouncedQuery (panel rt) ->
  let rt' := fire (Some k) v rt in
  requests rt' = requests rt ++ [mkRequest v k]
  /\ awaiting rt' = awaiting rt ++ [length (requests rt)]
  /\ debouncedQuery (panel rt') = v
  /\ isLoading (panel rt') = true
  /\ keywords (panel rt') = []
  /\ error (panel rt') = None.
Proof.
  intros Hk Hv Hne. cbv zeta. unfold fire.
  rewrite (proj2 (String.eqb_neq _ _) Hne).
  unfold autoSearch. cbn [panel with_panel committed with_timer debouncedQuery setDebouncedQuery].
  rewrite Hv. unfold handleSearch.
  cbn [panel with_panel committed with_timer queryToSearch].
  destruct (nonempty v) eqn:Hnv.
  - rewrite Hv. cbn [negb searchKeywords_request]. rewrite Hk. repeat split.
  - unfold nonempty in Hnv. apply negb_false_iff, String.eqb_eq in Hnv. subst v.
    discriminate.
Qed.

Lemma committed_query_is_searched_witness :
  map url (map keyword_param (requests (fire (Some "k") " seo " mount)))
  = ["https://ahrefs-dr-rank-checker.p.rapidapi.com/keyword-generator?keyword=%20seo%20&country=us"].
Proof.
  rewrite (proj1 (committed_query_is_searched "k" mount " seo " eq_refl eq_refl
                    ltac:(discriminate))).
  vm_compute. reflexivity.
Defined.

(** X22. Enter and the timer both search. When the key is configured and the
    panel is not loading, typing a new text that is not blank and pressing
    Enter before the quiet interval has passed sends the query, and the timer
    then sends the same query again: two requests for one text. *)
Theorem enter_then_timer_sends_twice
    (k : string) (rt : Runtime) (v : string) (d : nat) :
  nonempty k = true ->
  isLoading (panel rt) = false ->
  nonempty (trim v) = true ->
  v <> query (panel rt) ->
  v <> debouncedQuery (panel rt) ->
  quiet <= d ->
  let rt' := run (Some k) [Change v; PressEnter; Wait d] rt in
  requests rt' = requests rt ++ [mkRequest v k; mkRequest v k]
  /\ awaiting rt'
     = awaiting rt ++ [length (requests rt); S (length (requests rt))].
Proof.
  intros Hk Hload Hv Hq Hdq Hd. cbv zeta.
  set (sent := with_clock (clock rt + d)
                 (send (mkRequest v k)
                    (with_panel (λ p, setKeywords [] (setError None (setIsLoading true p)))
                       (with_timer (Some (clock rt + quiet, v))
                          (with_panel (setQuery v) rt))))).
  assert (Hrun : run (Some k) [Change v; PressEnter; Wait d] rt = fire (Some k) v sent).
  { unfold run. cbn [fold_left step].
    rewrite (change_edit v rt (proj2 (String.eqb_neq _ _) Hq)).
    unfold handleKeyPress. cbn [panel with_timer with_panel isLoading setQuery].
    rewrite Hload. cbn [negb].
    unfold handleSearch.
    cbn [panel with_timer with_panel queryToSearch query setQuery].
    rewrite Hv. cbn [negb searchKeywords_request]. rewrite Hk.
    unfold wait. cbn [timer send with_panel with_timer clock].
    destruct (Nat.leb_spec (clock rt + quiet) (clock rt + d)) as [_ | Hlt]; [| lia].
    reflexivity. }
  rewrite Hrun.
  destruct (fire_new_query k sent v Hk Hv Hdq) as (Hr & Ha).
  rewrite Hr, Ha. subst sent.
  cbn [requests awaiting with_clock send with_panel with_timer].
  rewrite <- !app_assoc, length_app. cbn [length app].
  rewrite Nat.add_1_r. split; reflexivity.
Qed.

Lemma enter_then_timer_sends_twice_witness :
  map keyword_param (requests (run (Some "k") [Change "seo"; PressEnter; Wait 300] mount))
  = ["seo"; "seo"].
Proof.
  rewrite (proj1 (enter_then_timer_sends_twice "k" mount "seo" 300 eq_refl eq_refl eq_refl
                    ltac:(discriminate) ltac:(discriminate) ltac:(unfold quiet; lia))).
  reflexivity.
Defined.

(** X17: other failures. When the awaited [fetch] is rejected by the transport,
    or answers with a success status and a body that is not JSON, the panel
    stops loading with the message of the transport or of the parser as its
    error, and the keywords stay as they were. *)
Theorem transport_failure_is_reported
    (rt : Runtime) (id : nat) (f : FetchResult) (message : string) :
  id ∈ awaiting rt ->
  (f = Failed message
   \/ exists code, f = Responded (mkResponse code (NotJson message))
                   /\ ok (mkResponse code (NotJson message)) = true) ->
  let rt' := arrive id f rt in
  error (panel rt') = Some (Text message)
  /\ keywords (panel rt') = keywords (panel rt)
  /\ isLoading (panel rt') = false.
Proof.
  intros Hid Hf. cbv zeta. unfold arrive.
  rewrite bool_decide_eq_true_2 by exact Hid.
  destruct Hf as [-> | (code & -> & Hok)]; unfold searchKeywords_response.
  - repeat split.
  - rewrite Hok. repeat split.
Qed.

Lemma transport_failure_is_reported_witness :
  error (panel (arrive 0 (Failed "Failed to fetch") searching))
  = Some (Text "Failed to fetch").
Proof.
  refine (proj1 (transport_failure_is_reported searching 0 (Failed "Failed to fetch")
                   "Failed to fetch" _ _)).
  - vm_compute. apply list_elem_of_here.
  - left. reflexivity.
Defined.
